(** * Video ingestion and delivery pipeline

    A shallow embedding of [handler_upload_video.go]: the aspect classifier
    ([getVideoAspectRatio]), the fast-start remux step
    ([processVideoForFastStart]), the locator codec ([dbVideoToSignedVideo],
    [generatePresignedURL]) and the upload orchestrator
    ([handlerUploadVideo]), with the properties the specification states
    about them.

    Conventions.
    - Go's [float64] is the kernel's binary64 type [float]; comparisons are
      the IEEE ones ([<=?]), constants are the nearest binary64 values, as
      the Go compiler converts them.
    - Go's [int] is a [Z] in the 64-bit signed range.
    - Go strings are [string]; byte slices are [list byte].
    - External collaborators (record store, object store, authentication,
      media tools, the MIME table, the random source, the file system) are
      explicit: their state lives in a [World], the outcome of each call the
      handler makes is read from an [Env]. *)

From Stdlib Require Import ZArith NArith Ascii String List Floats Uint63 Lia.
From Stdlib.Strings Require Import Byte.
From stdpp Require Import base option list strings gmap.

Set Warnings "-inexact-float".

Local Open Scope Z_scope.

(** ** Errors and results *)

(** A Go [error] value, identified by its message. *)
Inductive error : Type :=
  | errorString (msg : string).

Definition Error (e : error) : string :=
  match e with errorString m => m end.

(** The Go idiom [(T, error)]. *)
Inductive result (A : Type) : Type :=
  | Ok (a : A)
  | Err (e : error).
Arguments Ok {A} a.
Arguments Err {A} e.

(** ** Aspect classifier *)

Module Aspect.

(** One entry of [FFProbeShowStreamsReponse.Streams]. *)
Record Stream : Type := mkStream { Width : Z; Height : Z }.

(** What running [ffprobe] and decoding its standard output produced:
    [cmd.Run] failed, [json.Unmarshal] failed, or the decoded streams. *)
Inductive ProbeOutput : Type :=
  | ProbeRunFailed (err : string)
  | ProbeBadJSON (err : string)
  | ProbeStreams (streams : list Stream).

(** The least [int] of a 64-bit platform. *)
Definition min_int : Z := - 2 ^ 63.

(** Go's conversion [float64(n)] of an [int]: the nearest binary64 value.
    [of_uint63] covers magnitudes below [2^63]; [min_int] is the one
    remaining value and is itself a power of two. *)
Definition float64 (n : Z) : float :=
  if (n =? min_int)%Z then (-0x1p63)%float
  else if (n <? 0)%Z then (- of_uint63 (Uint63.of_Z (- n)))%float
  else of_uint63 (Uint63.of_Z n).

(** Lines 192-200: the two bands, first match wins.
    Go's [ratio >= c] is the IEEE comparison [c <= ratio]. *)
Definition classify (ratio : float) : string :=
  if ((1.7 <=? ratio) && (ratio <=? 1.8))%float then "16:9"
  else if ((0.5 <=? ratio) && (ratio <=? 0.6))%float then "9:16"
  else "other".

(** Line 190. *)
Definition ratio_of (s : Stream) : float :=
  (float64 (Width s) / float64 (Height s))%float.

(** Lines 176-200, after the tool has run: the decoding of its output
    and the classification of the first stream. *)
Definition aspectOfProbe (out : ProbeOutput) : result string :=
  match out with
  | ProbeRunFailed err => Err (errorString ("failed to run ffprobe: " +:+ err))
  | ProbeBadJSON err => Err (errorString err)
  | ProbeStreams [] => Err (errorString "no streams found in video file")
  | ProbeStreams (s :: _) => Ok (classify (ratio_of s))
  end.

(** The bands as predicates on a binary64 ratio. *)
Definition in_wide_band (r : float) : bool := ((1.7 <=? r) && (r <=? 1.8))%float.
Definition in_tall_band (r : float) : bool := ((0.5 <=? r) && (r <=? 0.6))%float.

End Aspect.

(** ** The string and encoding functions the handler calls *)

Module Strings.

(** [strings.Count(s, string(c))]. *)
Fixpoint Count (s : string) (c : ascii) : nat :=
  match s with
  | EmptyString => 0%nat
  | String a s' => ((if Ascii.eqb a c then 1 else 0) + Count s' c)%nat
  end.

(** [strings.Contains(s, string(c))]. *)
Fixpoint Contains (s : string) (c : ascii) : bool :=
  match s with
  | EmptyString => false
  | String a s' => Ascii.eqb a c || Contains s' c
  end.

(** [strings.Split(s, string(sep))] for a one-byte separator: the
    substrings between the separators, in order; an input with [n]
    separators yields [n + 1] substrings, the empty input one empty
    substring. *)
Fixpoint Split (s : string) (sep : ascii) : list string :=
  match s with
  | EmptyString => [EmptyString]
  | String a s' =>
      if Ascii.eqb a sep then EmptyString :: Split s' sep
      else match Split s' sep with
           | [] => [String a EmptyString]
           | p :: ps => String a p :: ps
           end
  end.

(** [strings.Join(parts, string(sep))]. *)
Fixpoint Join (parts : list string) (sep : ascii) : string :=
  match parts with
  | [] => EmptyString
  | [p] => p
  | p :: ps => p +:+ String sep (Join ps sep)
  end.

(** [strings.HasPrefix(s, prefix)]. *)
Definition HasPrefix (s pre : string) : bool := String.prefix pre s.

End Strings.

Module Base64.

(** [encodeURL]: the alphabet of [base64.URLEncoding]. *)
Definition encodeURL : list ascii :=
  list_ascii_of_string
    "ABCDEFGHIJKLMNOPQRSTUVWXYZabcdefghijklmnopqrstuvwxyz0123456789-_".

Definition encode (i : N) : ascii := nth (N.to_nat i) encodeURL "A"%char.

Definition uint (b : Byte.byte) : N := Byte.to_N b.

(** [val >> k & 0x3F], looked up in the alphabet. *)
Definition sextet (val : N) (k : N) : ascii :=
  encode (N.land (N.shiftr val k) 63).

(** [base64.RawURLEncoding.EncodeToString]: three source bytes give four
    characters; a remainder of one byte gives two characters, of two bytes
    three; no padding character is written. *)
Fixpoint EncodeToString (src : list Byte.byte) : string :=
  match src with
  | [] => EmptyString
  | [b0] =>
      let val := N.shiftl (uint b0) 16 in
      String (sextet val 18) (String (sextet val 12) EmptyString)
  | [b0; b1] =>
      let val := N.lor (N.shiftl (uint b0) 16) (N.shiftl (uint b1) 8) in
      String (sextet val 18) (String (sextet val 12)
        (String (sextet val 6) EmptyString))
  | b0 :: b1 :: b2 :: rest =>
      let val := N.lor (N.lor (N.shiftl (uint b0) 16) (N.shiftl (uint b1) 8))
                       (uint b2) in
      String (sextet val 18) (String (sextet val 12)
        (String (sextet val 6) (String (sextet val 0)
          (EncodeToString rest))))
  end.

End Base64.

(** ** The world the handler runs in *)

Module Store.

Definition UUID : Type := N.

(** Modelled from the spec: [database.Video], the record of the external
    record store (section 3, VideoRecord): identity, owning user identity,
    an optional thumbnail reference and an optional Locator. *)
Record Video : Type := mkVideo {
  ID : UUID;
  UserID : UUID;
  ThumbnailURL : option string;
  VideoURL : option string
}.

(** The Go assignment [video.VideoURL = &url]. *)
Definition set_VideoURL (url : string) (v : Video) : Video :=
  {| ID := ID v; UserID := UserID v;
     ThumbnailURL := ThumbnailURL v; VideoURL := Some url |}.

(** [database.Video{}]. *)
Definition zeroVideo : Video :=
  {| ID := 0%N; UserID := 0%N; ThumbnailURL := None; VideoURL := None |}.

(** An object of the object store. *)
Record Object : Type := mkObject {
  Body : list Byte.byte;
  ContentType : string
}.

(** [time.Duration]: nanoseconds. *)
Definition Duration : Type := Z.
Definition Minute : Duration := 60 * 1000000000.

(** What the handler does to its collaborators, in order. *)
Inductive Event : Type :=
  | EvLimitBody (limit : Z)
  | EvReadBody
  | EvCreateTemp (name : string)
  | EvRemove (name : string)
  | EvProbe (path : string)
  | EvRemux (path out : string)
  | EvPutObject (bucket key : string)
  | EvUpdateVideo (v : Video)
  | EvPresign (bucket key : string) (expires : Duration).

Record World : Type := mkWorld {
  files : gmap string (list Byte.byte);        (* local files, by path *)
  objects : gmap (string * string) Object;     (* object store, by bucket and key *)
  videos : gmap UUID Video;                    (* record store, by identity *)
  trace : list Event                           (* oldest first *)
}.

Definition log (e : Event) (w : World) : World :=
  {| files := files w; objects := objects w; videos := videos w;
     trace := trace w ++ [e] |}.

Definition with_files (f : gmap string (list Byte.byte)) (w : World) : World :=
  {| files := f; objects := objects w; videos := videos w; trace := trace w |}.

Definition with_objects (o : gmap (string * string) Object) (w : World) : World :=
  {| files := files w; objects := o; videos := videos w; trace := trace w |}.

Definition with_videos (v : gmap UUID Video) (w : World) : World :=
  {| files := files w; objects := objects w; videos := v; trace := trace w |}.

(** The multipart part [r.FormFile] hands back: its declared content type
    (the part header) and its bytes. *)
Record FilePart : Type := mkFilePart {
  part_content_type : string;
  part_data : list Byte.byte
}.

(** How a run of the remux tool ended: it wrote the whole output, or it
    exited non-zero, having possibly created the output file already. *)
Inductive RemuxRun : Type :=
  | RemuxDone (output : list Byte.byte)
  | RemuxFailed (err : string) (partial : option (list Byte.byte)).

(** [apiConfig], the fields the handler reads. *)
Record apiConfig : Type := mkConfig {
  s3Bucket : string;
  jwtSecret : string
}.

(** One request and the outcome of every external call made while it is
    handled. Each call happens at most once per request, so an outcome per
    call describes the run. *)
Record Env : Type := mkEnv {
  req_videoID : string;                          (* r.PathValue("videoID") *)
  req_body_len : Z;                              (* length of the request body *)
  req_form_video : result FilePart;              (* the form's "video" part, once the body is read *)
  uuid_Parse : string -> result UUID;
  GetBearerToken : result string;                (* auth.GetBearerToken(r.Header) *)
  ValidateJWT : string -> string -> result UUID; (* token, secret *)
  ParseMediaType : string -> string;             (* the media type; empty on error *)
  ExtensionsByType : string -> result (list string);
  CreateTemp : result string;                    (* the name of the new file *)
  Copy_err : option error;                       (* io.Copy *)
  Seek_err : option error;
  ffprobe : Aspect.ProbeOutput;
  ffmpeg : RemuxRun;
  Open_err : option error;
  rand_err : option error;
  entropy : list Byte.byte;                      (* what rand.Read delivers *)
  PutObject_err : option error;
  UpdateVideo_err : option error;
  PresignGetObject : string -> string -> Duration -> result string
}.

(** An HTTP response: [respondWithError] or [respondWithJSON]. *)
Inductive Response : Type :=
  | RespError (code : Z) (msg : string)
  | RespJSON (code : Z) (v : Video).

Definition StatusOK : Z := 200.
Definition StatusBadRequest : Z := 400.
Definition StatusUnauthorized : Z := 401.
Definition StatusInternalServerError : Z := 500.

End Store.

(** ** State and early return *)

Module Monad.
Import Store.

(** A call that acts on the collaborators. *)
Definition IO (A : Type) : Type := World -> World * A.

(** What [defer] registers. *)
Inductive Deferred : Type :=
  | DeferClose (name : string)
  | DeferRemove (name : string).

(** The state of one run of the handler: the world, the limit installed
    on the request body, and the deferred calls, latest first. *)
Record Frame : Type := mkFrame {
  world : World;
  body_limit : option Z;
  deferred : list Deferred
}.

(** A handler step: it continues with a value, or it has written the
    response and returned. *)
Definition H (A : Type) : Type := Frame -> Frame * (A + Response).

Definition ret {A} (a : A) : H A := fun fr => (fr, inl a).

Definition bind {A B} (m : H A) (k : A -> H B) : H B :=
  fun fr =>
    match m fr with
    | (fr', inl a) => k a fr'
    | (fr', inr resp) => (fr', inr resp)
    end.

(** [respondWith...(w, ...); return]. *)
Definition respond {A} (resp : Response) : H A := fun fr => (fr, inr resp).

Definition lift {A} (io : IO A) : H A :=
  fun fr =>
    let '(w, a) := io (world fr) in
    ({| world := w; body_limit := body_limit fr; deferred := deferred fr |}, inl a).

Definition defer (d : Deferred) : H unit :=
  fun fr =>
    ({| world := world fr; body_limit := body_limit fr;
        deferred := d :: deferred fr |}, inl tt).

(** [if err != nil { respondWithError(w, code, msg, err); return }]. *)
Definition check {A} (r : result A) (code : Z) (msg : string) : H A :=
  match r with
  | Ok a => ret a
  | Err _ => respond (RespError code msg)
  end.

(** [os.Remove(name)]. *)
Definition Remove (name : string) : IO unit :=
  fun w => (log (EvRemove name) (with_files (delete name (files w)) w), tt).

(** The deferred calls run when the function returns, latest first. *)
Fixpoint run_deferred (ds : list Deferred) (w : World) : World :=
  match ds with
  | [] => w
  | DeferClose _ :: ds' => run_deferred ds' w
  | DeferRemove name :: ds' => run_deferred ds' (fst (Remove name w))
  end.

End Monad.

Declare Scope handler_scope.
Delimit Scope handler_scope with handler.
Notation "x <- m ;; k" := (Monad.bind m (fun x => k))
(at level 100, m at next level, right associativity) : handler_scope.
Notation "m ;;; k" := (Monad.bind m (fun _ => k))
(at level 100, right associativity) : handler_scope.

(** ** Locator codec *)

Module Codec.
Import Store Strings Monad.

Definition delimiter : ascii := ","%char.

(** Line 145: [fmt.Sprintf("%s,%s", bucket, key)]. *)
Definition encode (bucket key : string) : string :=
  bucket +:+ String delimiter key.

Definition generatePresignedURL (env : Env) (bucket key : string)
    (expireTime : Duration) : IO (result string) :=
  fun w =>
    let w := log (EvPresign bucket key expireTime) w in
    match PresignGetObject env bucket key expireTime with
    | Err e =>
        (w, Err (errorString ("error generating presigned url: " +:+ Error e)))
    | Ok url => (w, Ok url)
    end.

(** The error of line 240. *)
Definition MalformedLocator : error :=
  errorString "error mapping db video to video with presigned url".

Definition dbVideoToSignedVideo (env : Env) (video : Video)
    : IO (result Video) :=
  fun w =>
    match VideoURL video with
    | None => (w, Ok video)
    | Some url =>
        let parts := Split url delimiter in
        if negb (length parts =? 2)%nat then (w, Err MalformedLocator)
        else
          match generatePresignedURL env (nth 0 parts "") (nth 1 parts "")
                  (30 * Minute) w with
          | (w', Err e) =>
              (w', Err (errorString
                 ("error mapping db video to video with presigned url: "
                  +:+ Error e)))
          | (w', Ok videoURL) => (w', Ok (set_VideoURL videoURL video))
          end
    end.

(** The shape section 3 of the specification asks of a Locator: exactly
    two parts, neither empty. *)
Definition two_nonempty_parts (s : string) : bool :=
  match Split s delimiter with
  | [a; b] => negb (String.eqb a "") && negb (String.eqb b "")
  | _ => false
  end.

End Codec.

(** ** Upload orchestrator *)

Module Upload.
Import Store Strings Monad Codec.
Local Open Scope handler_scope.

(** Line 27. *)
Definition uploadLimit : Z := Z.shiftl 1 30.

(** Line 28: [r.Body = http.MaxBytesReader(w, r.Body, uploadLimit)]. *)
Definition MaxBytesReader (limit : Z) : H unit :=
  fun fr =>
    ({| world := log (EvLimitBody limit) (world fr);
        body_limit := Some limit; deferred := deferred fr |}, inl tt).

(** [r.FormFile("video")]: the form is parsed from the request body, read
    through whatever limit is installed; reading past the limit fails. *)
Definition FormFile (env : Env) : H (result FilePart) :=
  fun fr =>
    let fr' := {| world := log EvReadBody (world fr);
                  body_limit := body_limit fr; deferred := deferred fr |} in
    match body_limit fr with
    | Some limit =>
        if (limit <? req_body_len env)%Z
        then (fr', inl (Err (errorString "http: request body too large")))
        else (fr', inl (req_form_video env))
    | None => (fr', inl (req_form_video env))
    end.

(** [cfg.db.GetVideo(id)]. *)
Definition GetVideo (id : UUID) : IO (result Video) :=
  fun w =>
    match videos w !! id with
    | Some v => (w, Ok v)
    | None => (w, Err (errorString "sql: no rows in result set"))
    end.

(** [cfg.db.UpdateVideo(video)]: the record is stored under its identity,
    or the store fails and keeps what it had. *)
Definition UpdateVideo (env : Env) (video : Video) : IO (result unit) :=
  fun w =>
    let w := log (EvUpdateVideo video) w in
    match UpdateVideo_err env with
    | Some e => (w, Err e)
    | None => (with_videos (<[ID video := video]> (videos w)) w, Ok tt)
    end.

(** [os.CreateTemp("", "tubely-upload.mp4")]: a new, empty file. *)
Definition os_CreateTemp (env : Env) : IO (result string) :=
  fun w =>
    match CreateTemp env with
    | Err e => (w, Err e)
    | Ok name =>
        (log (EvCreateTemp name) (with_files (<[name := []]> (files w)) w),
         Ok name)
    end.

(** [io.Copy(tempfile, file)]. *)
Definition io_Copy (env : Env) (name : string) (part : FilePart)
    : IO (result unit) :=
  fun w =>
    match Copy_err env with
    | Some e => (w, Err e)
    | None => (with_files (<[name := part_data part]> (files w)) w, Ok tt)
    end.

(** [tempfile.Seek(0, io.SeekStart)]. *)
Definition Seek (env : Env) : result unit :=
  match Seek_err env with Some e => Err e | None => Ok tt end.

(** Lines 170-201. *)
Definition getVideoAspectRatio (env : Env) (filePath : string)
    : IO (result string) :=
  fun w => (log (EvProbe filePath) w, Aspect.aspectOfProbe (ffprobe env)).

(** Lines 203-213. The tool writes [outFilePath]; when it fails it may
    have created that file before it gave up. *)
Definition processVideoForFastStart (env : Env) (filePath : string)
    : IO (result string) :=
  fun w =>
    let outFilePath := filePath +:+ ".processing" in
    let w := log (EvRemux filePath outFilePath) w in
    match ffmpeg env with
    | RemuxFailed err partial =>
        (match partial with
         | Some data => with_files (<[outFilePath := data]> (files w)) w
         | None => w
         end,
         Err (errorString ("failed to run ffmpeg: " +:+ err)))
    | RemuxDone data =>
        (with_files (<[outFilePath := data]> (files w)) w, Ok outFilePath)
    end.

(** [os.Open(name)]. *)
Definition os_Open (env : Env) (name : string) : IO (result string) :=
  fun w =>
    match files w !! name with
    | None => (w, Err (errorString "no such file or directory"))
    | Some _ =>
        match Open_err env with
        | Some e => (w, Err e)
        | None => (w, Ok name)
        end
    end.

(** [b := make([]byte, 32); rand.Read(b)]. *)
Definition rand_Read (env : Env) : result (list Byte.byte) :=
  match rand_err env with
  | Some e => Err e
  | None => Ok (take 32 (entropy env ++ replicate 32 x00))
  end.

(** [cfg.s3Client.PutObject]: one put of the whole file. *)
Definition PutObject (env : Env) (bucket key path contentType : string)
    : IO (result unit) :=
  fun w =>
    let w := log (EvPutObject bucket key) w in
    match PutObject_err env with
    | Some e => (w, Err e)
    | None =>
        (with_objects
           (<[(bucket, key) :=
                {| Body := default [] (files w !! path);
                   ContentType := contentType |}]> (objects w)) w,
         Ok tt)
    end.

(** Lines 99-106. *)
Definition keyPrefixOf (aspectRatio : string) : string :=
  if String.eqb aspectRatio "16:9" then "landscape"
  else if String.eqb aspectRatio "9:16" then "portrait"
  else "other".

(** Line 131: [fmt.Sprintf("%s/%s", keyPrefix, filenameNoExt+ext)]. *)
Definition objectKeyOf (keyPrefix filenameNoExt ext : string) : string :=
  keyPrefix +:+ "/" +:+ (filenameNoExt +:+ ext).

(** The body of [handlerUploadVideo], lines 27-160. *)
Definition body (cfg : apiConfig) (env : Env) : H Empty_set :=
  MaxBytesReader uploadLimit ;;;
  videoID <- check (uuid_Parse env (req_videoID env))
               StatusBadRequest "Invalid ID" ;;
  token <- check (GetBearerToken env)
             StatusUnauthorized "Couldn't find JWT" ;;
  userID <- check (ValidateJWT env token (jwtSecret cfg))
              StatusUnauthorized "Couldn't validate JWT" ;;
  fetched <- lift (GetVideo videoID) ;;
  video <- match fetched with
           | Ok v =>
               if negb (N.eqb (UserID v) userID)
               then respond (RespError StatusUnauthorized "Unauthorized")
               else ret v
           | Err _ => respond (RespError StatusUnauthorized "Unauthorized")
           end ;;
  parsed <- FormFile env ;;
  file <- check parsed StatusBadRequest "Unable to parse form file" ;;
  defer (DeferClose "file") ;;;
  let mimeType := part_content_type file in
  let mediaType := ParseMediaType env mimeType in
  (if negb (String.eqb mediaType "video/mp4")
   then respond (RespError StatusBadRequest "Upload a valid mp4 video")
   else ret tt) ;;;
  ext <- match ExtensionsByType env mimeType with
         | Ok (e :: _) => ret e
         | _ => respond (RespError StatusBadRequest "Upload a valid mp4 video")
         end ;;
  created <- lift (os_CreateTemp env) ;;
  tempfile <- check created StatusInternalServerError "Something went wrong" ;;
  defer (DeferRemove tempfile) ;;;
  defer (DeferClose tempfile) ;;;
  copied <- lift (io_Copy env tempfile file) ;;
  check copied StatusInternalServerError "Something went wrong" ;;;
  check (Seek env) StatusInternalServerError "Something went wrong" ;;;
  probed <- lift (getVideoAspectRatio env tempfile) ;;
  aspectRatio <- check probed StatusInternalServerError
                   "Error getting video aspect ratio" ;;
  let keyPrefix := keyPrefixOf aspectRatio in
  processed <- lift (processVideoForFastStart env tempfile) ;;
  processedFilePath <- check processed StatusInternalServerError
                         "Error processing video for faststart" ;;
  opened <- lift (os_Open env processedFilePath) ;;
  processedTempFile <- check opened StatusInternalServerError
                         "Error opening processed file" ;;
  defer (DeferRemove processedTempFile) ;;;
  defer (DeferClose processedTempFile) ;;;
  b <- check (rand_Read env) StatusInternalServerError "Something went wrong" ;;
  let filenameNoExt := Base64.EncodeToString b in
  let objectKey := objectKeyOf keyPrefix filenameNoExt ext in
  put <- lift (PutObject env (s3Bucket cfg) objectKey processedTempFile
                 mediaType) ;;
  check put StatusInternalServerError "Something went wrong" ;;;
  let videoURL := encode (s3Bucket cfg) objectKey in
  let video := set_VideoURL videoURL video in
  updated <- lift (UpdateVideo env video) ;;
  check updated StatusInternalServerError "Something went wrong" ;;;
  signed <- lift (dbVideoToSignedVideo env video) ;;
  video <- check signed StatusInternalServerError
             "error mapping db video to signed video" ;;
  respond (RespJSON StatusOK video).

(** [handlerUploadVideo]: the body, then the deferred calls. *)
Definition handlerUploadVideo (cfg : apiConfig) (env : Env) (w : World)
    : World * Response :=
  let '(fr, r) :=
    body cfg env {| world := w; body_limit := None; deferred := [] |} in
  (run_deferred (deferred fr) (world fr),
   match r with
   | inr resp => resp
   | inl e => match e : Empty_set with end
   end).

End Upload.

(** ** Sample runs *)

Module Samples.
Import Store Monad Codec Upload.

Definition cfg0 : apiConfig := {| s3Bucket := "tubely"; jwtSecret := "secret" |}.

Definition video0 : Video :=
  {| ID := 7%N; UserID := 1%N;
     ThumbnailURL := Some "http://localhost:8091/assets/t.png";
     VideoURL := None |}.

Definition world0 : World :=
  {| files := ∅; objects := ∅; videos := {[ 7%N := video0 ]}; trace := [] |}.

Definition sign0 (bucket key : string) (ttl : Duration) : result string :=
  Ok ("https://" +:+ bucket +:+ ".s3.amazonaws.com/" +:+ key +:+ "?X-Amz-Expires=1800").

(** A well-formed upload of a clip of the given geometry for which every
    collaborator succeeds. *)
Definition upload_of (width height : Z) : Env :=
  {| req_videoID := "00000000-0000-0000-0000-000000000007";
     req_body_len := 4096;
     req_form_video :=
       Ok {| part_content_type := "video/mp4"; part_data := [x00; x01; x02] |};
     uuid_Parse := fun _ => Ok 7%N;
     GetBearerToken := Ok "token";
     ValidateJWT := fun _ _ => Ok 1%N;
     ParseMediaType := fun t => t;
     ExtensionsByType := fun _ => Ok [".mp4"];
     CreateTemp := Ok "/tmp/tubely-upload.mp4123";
     Copy_err := None;
     Seek_err := None;
     ffprobe := Aspect.ProbeStreams [Aspect.mkStream width height];
     ffmpeg := RemuxDone [x02; x01; x00];
     Open_err := None;
     rand_err := None;
     entropy := [];
     PutObject_err := None;
     UpdateVideo_err := None;
     PresignGetObject := sign0 |}.

(** A signer that, like the storage client's request serializer, refuses
    an empty bucket or key. *)
Definition sign_strict (bucket key : string) (ttl : Duration) : result string :=
  if String.eqb bucket "" then Err (errorString "input member Bucket must not be empty")
  else if String.eqb key "" then Err (errorString "input member Key must not be empty")
  else sign0 bucket key ttl.

Definition with_signer (sign : string -> string -> Duration -> result string)
    (env : Env) : Env :=
  {| req_videoID := req_videoID env; req_body_len := req_body_len env;
     req_form_video := req_form_video env; uuid_Parse := uuid_Parse env;
     GetBearerToken := GetBearerToken env; ValidateJWT := ValidateJWT env;
     ParseMediaType := ParseMediaType env;
     ExtensionsByType := ExtensionsByType env; CreateTemp := CreateTemp env;
     Copy_err := Copy_err env; Seek_err := Seek_err env;
     ffprobe := ffprobe env; ffmpeg := ffmpeg env; Open_err := Open_err env;
     rand_err := rand_err env; entropy := entropy env;
     PutObject_err := PutObject_err env;
     UpdateVideo_err := UpdateVideo_err env;
     PresignGetObject := sign |}.

Definition with_ffmpeg (run : RemuxRun) (env : Env) : Env :=
  {| req_videoID := req_videoID env; req_body_len := req_body_len env;
     req_form_video := req_form_video env; uuid_Parse := uuid_Parse env;
     GetBearerToken := GetBearerToken env; ValidateJWT := ValidateJWT env;
     ParseMediaType := ParseMediaType env;
     ExtensionsByType := ExtensionsByType env; CreateTemp := CreateTemp env;
     Copy_err := Copy_err env; Seek_err := Seek_err env;
     ffprobe := ffprobe env; ffmpeg := run; Open_err := Open_err env;
     rand_err := rand_err env; entropy := entropy env;
     PutObject_err := PutObject_err env;
     UpdateVideo_err := UpdateVideo_err env;
     PresignGetObject := PresignGetObject env |}.


(** The three sample clips of the specification, uploaded. *)
Definition run_wide : World * Response :=
  handlerUploadVideo cfg0 (upload_of 1280 720) world0.
Definition run_tall : World * Response :=
  handlerUploadVideo cfg0 (upload_of 720 1280) world0.
Definition run_other : World * Response :=
  handlerUploadVideo cfg0 (upload_of 640 480) world0.

(** The identifier [rand_Read] and the encoder give for an exhausted
    entropy source: 32 zero bytes. *)
Definition name0 : string := "AAAAAAAAAAAAAAAAAAAAAAAAAAAAAAAAAAAAAAAAAAA".

Definition signed0 (key : string) : Video :=
  {| ID := 7%N; UserID := 1%N;
     ThumbnailURL := Some "http://localhost:8091/assets/t.png";
     VideoURL := Some ("https://tubely.s3.amazonaws.com/" +:+ key
                       +:+ "?X-Amz-Expires=1800") |}.

End Samples.

Module MoreSamples.
Import Store Samples.

Definition with_update_err (e : error) (env : Env) : Env :=
  {| req_videoID := req_videoID env; req_body_len := req_body_len env;
     req_form_video := req_form_video env; uuid_Parse := uuid_Parse env;
     GetBearerToken := GetBearerToken env; ValidateJWT := ValidateJWT env;
     ParseMediaType := ParseMediaType env;
     ExtensionsByType := ExtensionsByType env; CreateTemp := CreateTemp env;
     Copy_err := Copy_err env; Seek_err := Seek_err env;
     ffprobe := ffprobe env; ffmpeg := ffmpeg env; Open_err := Open_err env;
     rand_err := rand_err env; entropy := entropy env;
     PutObject_err := PutObject_err env;
     UpdateVideo_err := Some e;
     PresignGetObject := PresignGetObject env |}.


Definition with_jwt (validate : string -> string -> result UUID) (env : Env)
  : Env :=
  {| req_videoID := req_videoID env; req_body_len := req_body_len env;
     req_form_video := req_form_video env; uuid_Parse := uuid_Parse env;
     GetBearerToken := GetBearerToken env; ValidateJWT := validate;
     ParseMediaType := ParseMediaType env;
     ExtensionsByType := ExtensionsByType env; CreateTemp := CreateTemp env;
     Copy_err := Copy_err env; Seek_err := Seek_err env;
     ffprobe := ffprobe env; ffmpeg := ffmpeg env; Open_err := Open_err env;
     rand_err := rand_err env; entropy := entropy env;
     PutObject_err := PutObject_err env;
     UpdateVideo_err := UpdateVideo_err env;
     PresignGetObject := PresignGetObject env |}.

Definition with_entropy (bytes : list Byte.byte) (env : Env) : Env :=
  {| req_videoID := req_videoID env; req_body_len := req_body_len env;
     req_form_video := req_form_video env; uuid_Parse := uuid_Parse env;
     GetBearerToken := GetBearerToken env; ValidateJWT := ValidateJWT env;
     ParseMediaType := ParseMediaType env;
     ExtensionsByType := ExtensionsByType env; CreateTemp := CreateTemp env;
     Copy_err := Copy_err env; Seek_err := Seek_err env;
     ffprobe := ffprobe env; ffmpeg := ffmpeg env; Open_err := Open_err env;
     rand_err := rand_err env; entropy := bytes;
     PutObject_err := PutObject_err env;
     UpdateVideo_err := UpdateVideo_err env;
     PresignGetObject := PresignGetObject env |}.

End MoreSamples.

Module Base64Index.
Import Base64.

(** The position of a character in a list, or the length of the list. *)
Fixpoint index_in (l : list ascii) (c : ascii) : N :=
  match l with
  | [] => 0%N
  | a :: l' => if Ascii.eqb a c then 0%N else N.succ (index_in l' c)
  end.

(** The value a character of the alphabet stands for. *)
Definition value_of (c : ascii) : N := index_in encodeURL c.

End Base64Index.

(** ** Thumbnail upload *)

Module Thumbnail.
Import Store Strings Monad Codec Upload.
Local Open Scope handler_scope.




(** Line 39. *)
Definition maxMemory : Z := Z.shiftl 10 20.







End Thumbnail.

Module ThumbSamples.
Import Store Thumbnail Samples MoreSamples.






End ThumbSamples.

(** ** The shape of a successful upload *)

Module Outcome.
Import Store Strings Monad Codec Upload.

(** Everything that holds of a run that ends in the 200 response: what each
    collaborator answered, and what the run left in the world. *)
Inductive Success (cfg : apiConfig) (env : Env) (w w' : World) (v : Video)
  : Prop :=
| success_run (videoID userID : UUID) (token : string) (fetched : Video)
    (file : FilePart) (ext : string) (exts : list string)
    (tempfile aspect out key locator url : string)
    (output b : list Byte.byte) (persisted : Video)
    (Hout : out = tempfile +:+ ".processing")
    (Hkey : key = objectKeyOf (keyPrefixOf aspect) (Base64.EncodeToString b) ext)
    (Hlocator : locator = encode (s3Bucket cfg) key)
    (Hpersisted : persisted = set_VideoURL locator fetched)
    (Hid : uuid_Parse env (req_videoID env) = Ok videoID)
    (Htoken : GetBearerToken env = Ok token)
    (Huser : ValidateJWT env token (jwtSecret cfg) = Ok userID)
    (Hfetched : videos w !! videoID = Some fetched)
    (Howner : UserID fetched = userID)
    (Hsize : req_body_len env <= uploadLimit)
    (Hfile : req_form_video env = Ok file)
    (Hmedia : ParseMediaType env (part_content_type file) = "video/mp4")
    (Hext : ExtensionsByType env (part_content_type file) = Ok (ext :: exts))
    (Htemp : CreateTemp env = Ok tempfile)
    (Haspect : Aspect.aspectOfProbe (ffprobe env) = Ok aspect)
    (Hremux : ffmpeg env = RemuxDone output)
    (Hrand : rand_Read env = Ok b)
    (Hbucket : Contains (s3Bucket cfg) delimiter = false)
    (Hclean : Contains key delimiter = false)
    (Hsign : PresignGetObject env (s3Bucket cfg) key (30 * Minute) = Ok url)
    (Hresp : v = set_VideoURL url persisted)
    (Hfiles : files w' =
       delete tempfile (delete out
         (<[out := output]> (<[tempfile := part_data file]>
            (<[tempfile := []]> (files w))))))
    (Hobjects : objects w' =
       <[(s3Bucket cfg, key) := {| Body := output; ContentType := "video/mp4" |}]>
         (objects w))
    (Hvideos : videos w' = <[ID fetched := persisted]> (videos w))
    (Htrace : trace w' = trace w ++
       [EvLimitBody uploadLimit; EvReadBody; EvCreateTemp tempfile;
        EvProbe tempfile; EvRemux tempfile out;
        EvPutObject (s3Bucket cfg) key; EvUpdateVideo persisted;
        EvPresign (s3Bucket cfg) key (30 * Minute);
        EvRemove out; EvRemove tempfile]).

(** The records handed to [UpdateVideo] in a trace, in order. *)
Fixpoint updates (t : list Event) : list Video :=
  match t with
  | [] => []
  | EvUpdateVideo v :: t' => v :: updates t'
  | _ :: t' => updates t'
  end.

(** The files created by [os.CreateTemp] in a trace. *)
Fixpoint staged (t : list Event) : list string :=
  match t with
  | [] => []
  | EvCreateTemp name :: t' => name :: staged t'
  | _ :: t' => staged t'
  end.

End Outcome.

Module AspectFacts.
Import Aspect.

Lemma sf_1_7 : Prim2SF 1.7 = S754_finite false 7656119366529843 (-52).
Proof. reflexivity. Qed.
Lemma sf_1_8 : Prim2SF 1.8 = S754_finite false 8106479329266893 (-52).
Proof. reflexivity. Qed.
Lemma sf_0_5 : Prim2SF 0.5 = S754_finite false 4503599627370496 (-53).
Proof. reflexivity. Qed.
Lemma sf_0_6 : Prim2SF 0.6 = S754_finite false 5404319552844595 (-53).
Proof. reflexivity. Qed.

(** Nothing is at least 1.7 and at most 0.6: the bands do not overlap. *)
Lemma bands_disjoint (r : float) :
  (1.7 <=? r)%float = true -> (r <=? 0.6)%float = true -> False.
Proof.
  rewrite !FloatAxioms.leb_spec, sf_1_7, sf_0_6.
  destruct (Prim2SF r) as [[]|[]| |[] m e]; unfold SFleb, SFcompare;
    try discriminate; try (intros; discriminate).
  destruct (Z.compare_spec (-52) e), (Z.compare_spec e (-53));
    try discriminate; try (intros; discriminate); lia.
Qed.

Lemma classify_wide_iff r : classify r = "16:9" <-> in_wide_band r = true.
Proof.
  unfold classify, in_wide_band.
  destruct ((1.7 <=? r) && (r <=? 1.8))%float; [tauto|].
  destruct ((0.5 <=? r) && (r <=? 0.6))%float; split; discriminate.
Qed.

Lemma classify_tall_iff r : classify r = "9:16" <-> in_tall_band r = true.
Proof.
  unfold classify, in_tall_band.
  destruct (1.7 <=? r)%float eqn:H17; cbn [andb].
  - destruct (r <=? 1.8)%float.
    + split; [discriminate|]. intros [_ H06]%andb_prop.
      destruct (bands_disjoint r H17 H06).
    + destruct ((0.5 <=? r) && (r <=? 0.6))%float; split; congruence.
  - destruct ((0.5 <=? r) && (r <=? 0.6))%float; split; congruence.
Qed.

Lemma classify_other_iff r :
  classify r = "other" <-> in_wide_band r = false /\ in_tall_band r = false.
Proof.
  unfold classify, in_wide_band, in_tall_band.
  destruct ((1.7 <=? r) && (r <=? 1.8))%float;
    destruct ((0.5 <=? r) && (r <=? 0.6))%float;
    split; try discriminate; try tauto; intros [? ?]; discriminate.
Qed.

(** Dividing by (positive) zero never lands in a band. *)
Lemma classify_div_zero (x : float) : classify (x / 0)%float = "other".
Proof.
  apply classify_other_iff. unfold in_wide_band, in_tall_band.
  rewrite !FloatAxioms.leb_spec, FloatAxioms.div_spec, sf_1_7, sf_1_8, sf_0_5, sf_0_6.
  change (Prim2SF 0) with (S754_zero false).
  destruct (Prim2SF x) as [[]|[]| |[] m e]; split; reflexivity.
Qed.

End AspectFacts.



(** ** Facts about the string functions *)

Module StringFacts.
Import Strings.

Lemma Split_nonempty s c : Split s c <> [].
Proof.
  destruct s as [|a s]; cbn; [discriminate|].
  destruct (Ascii.eqb a c); [discriminate|].
  destruct (Split s c); discriminate.
Qed.

(** [n] separators give [n + 1] parts. *)
Lemma Split_length s c : length (Split s c) = S (Count s c).
Proof.
  induction s as [|a s IH]; cbn; [reflexivity|].
  destruct (Ascii.eqb a c); cbn; [now rewrite IH|].
  destruct (Split s c) as [|p ps] eqn:E; cbn in *; [discriminate|exact IH].
Qed.

(** Joining the parts gives the string back. *)
Lemma Join_Split s c : Join (Split s c) c = s.
Proof.
  induction s as [|a s IH]; cbn; [reflexivity|].
  destruct (Ascii.eqb_spec a c) as [->|Hne].
  - cbn. destruct (Split s c) as [|p ps] eqn:E.
    + now destruct (Split_nonempty s c).
    + cbn in *. now rewrite IH.
  - destruct (Split s c) as [|p ps] eqn:E.
    + now destruct (Split_nonempty s c).
    + destruct ps; cbn in *; now rewrite <- IH.
Qed.

Lemma Contains_Count s c : Contains s c = false <-> Count s c = 0%nat.
Proof.
  induction s as [|a s IH]; cbn; [tauto|].
  destruct (Ascii.eqb a c); cbn; [split; discriminate|exact IH].
Qed.

Lemma append_nil t : "" +:+ t = t.
Proof. reflexivity. Qed.

Lemma append_cons a s t : String a s +:+ t = String a (s +:+ t).
Proof. reflexivity. Qed.

Lemma Count_app s t c : Count (s +:+ t) c = (Count s c + Count t c)%nat.
Proof.
  induction s as [|a s IH]; [reflexivity|].
  rewrite append_cons. cbn. rewrite IH. lia.
Qed.


Lemma Split_clean s c : Contains s c = false -> Split s c = [s].
Proof.
  induction s as [|a s IH]; cbn; [reflexivity|].
  destruct (Ascii.eqb a c); cbn; [discriminate|].
  intros H. now rewrite (IH H).
Qed.

(** A separator after a clean prefix ends the first part there. *)
Lemma Split_cons s t c :
  Contains s c = false -> Split (s +:+ String c t) c = s :: Split t c.
Proof.
  induction s as [|a s IH]; [rewrite append_nil|rewrite append_cons]; cbn.
  - intros _. now rewrite Ascii.eqb_refl.
  - destruct (Ascii.eqb a c); cbn; [discriminate|].
    intros H. now rewrite (IH H).
Qed.

(** No part contains the separator. *)
Lemma Split_parts_clean s c : Forall (fun p => Contains p c = false) (Split s c).
Proof.
  induction s as [|a s IH]; cbn; [repeat constructor|].
  destruct (Ascii.eqb a c) eqn:E; [constructor; [reflexivity|exact IH]|].
  destruct (Split s c) as [|p ps]; [repeat constructor; cbn; now rewrite E|].
  inversion IH; subst. constructor; [cbn; now rewrite E|assumption].
Qed.

Lemma app_eq_self s t : s +:+ t = s -> t = "".
Proof.
  induction s as [|a s IH]; [auto|].
  rewrite append_cons. intros H. injection H. exact IH.
Qed.

End StringFacts.

Module Base64Facts.
Import Strings Base64.

(** No character of the alphabet is a comma. *)
Lemma encode_not_comma i : Ascii.eqb (encode i) ","%char = false.
Proof.
  unfold encode.
  assert (H : Forall (fun a => Ascii.eqb a ","%char = false) encodeURL)
    by (unfold encodeURL; cbn; repeat constructor).
  destruct (nth_in_or_default (N.to_nat i) encodeURL "A"%char) as [Hin| ->].
  - rewrite Forall_forall in H. now apply H, list_elem_of_In.
  - reflexivity.
Qed.

Lemma sextet_not_comma val k : Ascii.eqb (sextet val k) ","%char = false.
Proof. apply encode_not_comma. Qed.

(** The encoded identifier never contains the delimiter. *)
Lemma EncodeToString_clean src : Contains (EncodeToString src) ","%char = false.
Proof.
  revert src.
  assert (H : forall n src, (length src <= n)%nat ->
              Contains (EncodeToString src) ","%char = false).
  { induction n as [|n IH]; intros src Hlen.
    - destruct src; [reflexivity|cbn in Hlen; lia].
    - destruct src as [|b0 [|b1 [|b2 rest]]];
        cbn [EncodeToString Contains];
        rewrite ?sextet_not_comma; cbn [orb]; try reflexivity.
      apply IH. cbn in Hlen. lia. }
  intros src. now apply (H (length src)).
Qed.

Lemma EncodeToString_nonempty src : src <> [] -> EncodeToString src <> "".
Proof. destruct src as [|b0 [|b1 [|b2 rest]]]; cbn; congruence. Qed.

End Base64Facts.

(** ** The aspect classifier *)

Module AspectClaims.
Import Aspect AspectFacts.

(** C1. For every binary64 ratio [r], the classifier answers "16:9" (wide)
    exactly when [1.7 <= r <= 1.8], "9:16" (tall) exactly when
    [0.5 <= r <= 0.6], and "other" exactly when [r] is in neither band; the
    ratio classified is the one of the first probed stream; and the four
    boundary values fall into their bands. *)
Theorem classify_bands :
  (forall r : float,
     (classify r = "16:9" <->
        (1.7 <=? r)%float = true /\ (r <=? 1.8)%float = true) /\
     (classify r = "9:16" <->
        (0.5 <=? r)%float = true /\ (r <=? 0.6)%float = true) /\
     (classify r = "other" <->
        ((1.7 <=? r) && (r <=? 1.8))%float = false /\
        ((0.5 <=? r) && (r <=? 0.6))%float = false)) /\
  (forall s rest,
     aspectOfProbe (ProbeStreams (s :: rest)) = Ok (classify (ratio_of s))) /\
  classify 1.7 = "16:9" /\ classify 1.8 = "16:9" /\
  classify 0.5 = "9:16" /\ classify 0.6 = "9:16".
Proof.
  split; [|repeat split; reflexivity].
  intros r. rewrite classify_wide_iff, classify_tall_iff, classify_other_iff.
  unfold in_wide_band, in_tall_band. rewrite !andb_true_iff. tauto.
Qed.

(** C10. A first stream of height 0 never makes the classifier fail: for
    every width the division gives an infinity or a NaN, and the answer is
    "other". *)
Theorem zero_height_is_other :
  forall (width : Z) (rest : list Stream),
    aspectOfProbe (ProbeStreams (mkStream width 0 :: rest)) = Ok "other" /\
    match Prim2SF (ratio_of (mkStream width 0)) with
    | S754_infinity _ | S754_nan => True
    | _ => False
    end.
Proof.
  intros width rest. unfold aspectOfProbe, ratio_of. cbn [Width Height].
  change (float64 0) with 0%float. split.
  - now rewrite classify_div_zero.
  - rewrite FloatAxioms.div_spec. change (Prim2SF 0) with (S754_zero false).
    now destruct (Prim2SF (float64 width)) as [[]|[]| |[] m e].
Qed.

End AspectClaims.

(** ** The locator codec *)

Module CodecClaims.
Import Store Strings Monad Codec StringFacts Samples.

Lemma two_parts s : length (Split s delimiter) = 2%nat <-> Count s delimiter = 1%nat.
Proof. rewrite Split_length. lia. Qed.

(** What [dbVideoToSignedVideo] does with a Locator that splits in two. *)
Lemma sign_two_parts env w video s bucket key :
  VideoURL video = Some s ->
  Split s delimiter = [bucket; key] ->
  dbVideoToSignedVideo env video w =
    (log (EvPresign bucket key (30 * Minute)) w,
     match PresignGetObject env bucket key (30 * Minute) with
     | Ok url => Ok (set_VideoURL url video)
     | Err e =>
         Err (errorString
                ("error mapping db video to video with presigned url: "
                 +:+ ("error generating presigned url: " +:+ Error e)))
     end).
Proof.
  intros Hurl Hsplit. unfold dbVideoToSignedVideo, generatePresignedURL.
  rewrite Hurl, Hsplit. cbn [length Nat.eqb negb nth].
  now destruct (PresignGetObject env bucket key (30 * Minute)).
Qed.

(** C3, amended. Decode+sign fails with the malformed-locator error
    exactly when the split does not yield exactly two parts, that is when
    the Locator holds zero or more than one delimiter. *)
Theorem malformed_iff_not_two_parts :
  forall env w id uid thumb s,
    (snd (dbVideoToSignedVideo env (mkVideo id uid thumb (Some s)) w)
       = Err MalformedLocator
     <-> length (Split s delimiter) <> 2%nat) /\
    (length (Split s delimiter) <> 2%nat <-> Count s delimiter <> 1%nat).
Proof.
  intros env w id uid thumb s. split; [|now rewrite two_parts].
  unfold dbVideoToSignedVideo, generatePresignedURL. cbn [VideoURL].
  destruct (Nat.eqb_spec (length (Split s delimiter)) 2) as [H2|H2];
    cbn [negb]; [|tauto].
  split; [|tauto].
  destruct (PresignGetObject env _ _ _); cbn [snd]; discriminate.
Qed.

(** C3 as stated fails: a Locator with one delimiter and an empty container
    is not of the two-non-empty-parts shape, yet it is not refused as
    malformed; it reaches the signer, whatever the signer then says. *)
Lemma empty_component_reaches_signer :
  two_nonempty_parts ",k" = false /\
  dbVideoToSignedVideo (upload_of 1280 720) (mkVideo 7%N 1%N None (Some ",k")) world0
    = (log (EvPresign "" "k" (30 * Minute)) world0,
       Ok (mkVideo 7%N 1%N None
             (Some "https://.s3.amazonaws.com/k?X-Amz-Expires=1800"))) /\
  snd (dbVideoToSignedVideo (with_signer sign_strict (upload_of 1280 720))
         (mkVideo 7%N 1%N None (Some ",k")) world0)
    = Err (errorString
             "error mapping db video to video with presigned url: error generating presigned url: input member Bucket must not be empty").
Proof. repeat split; reflexivity. Qed.

(** C5. A Locator encoded from a container and a key, neither containing
    the delimiter, decodes to exactly that container and that key: the split
    gives the pair back, and it is the pair the signer is asked about. *)
Theorem decode_encode :
  forall env w video container key,
    Contains container delimiter = false ->
    Contains key delimiter = false ->
    VideoURL video = Some (encode container key) ->
    Split (encode container key) delimiter = [container; key] /\
    fst (dbVideoToSignedVideo env video w)
      = log (EvPresign container key (30 * Minute)) w.
Proof.
  intros env w video container key Hc Hk Hurl.
  assert (Hsplit : Split (encode container key) delimiter = [container; key]).
  { unfold encode. rewrite (Split_cons _ _ _ Hc). now rewrite (Split_clean _ _ Hk). }
  split; [exact Hsplit|].
  now rewrite (sign_two_parts env w video _ _ _ Hurl Hsplit).
Qed.

Lemma decode_encode_witness :
  Split (encode "tubely" "landscape/abc.mp4") delimiter
    = ["tubely"; "landscape/abc.mp4"] /\
  fst (dbVideoToSignedVideo (upload_of 1280 720)
         (mkVideo 7%N 1%N None (Some (encode "tubely" "landscape/abc.mp4"))) world0)
    = log (EvPresign "tubely" "landscape/abc.mp4" (30 * Minute)) world0.
Proof.
  apply (decode_encode (upload_of 1280 720) world0
           (mkVideo 7%N 1%N None (Some (encode "tubely" "landscape/abc.mp4")))
           "tubely" "landscape/abc.mp4"); reflexivity.
Defined.



End CodecClaims.


(** ** Running the handler *)

Module UploadFacts.
Import Store Strings Monad Codec Upload Outcome StringFacts.

Ltac unfold_handler :=
  unfold handlerUploadVideo, body, bind, check, lift, defer, ret, respond,
    MaxBytesReader, FormFile, GetVideo, UpdateVideo, os_CreateTemp, io_Copy,
    Seek, getVideoAspectRatio, processVideoForFastStart, os_Open,
    PutObject in *.

Ltac simpl_world H :=
  cbn [world body_limit deferred fst snd files objects videos trace
       log with_files with_objects with_videos run_deferred Remove
       ID UserID ThumbnailURL VideoURL set_VideoURL] in H.

(** One case split on the next undecided outcome of the run in [H]. *)
Ltac branch H :=
  match type of H with
  | context [match ?x with _ => _ end] =>
      lazymatch x with
      | context [match _ with _ => _ end] => fail
      | _ => destruct x eqn:?
      end
  | context [if ?x then _ else _] =>
      lazymatch x with
      | context [match _ with _ => _ end] => fail
      | _ => destruct x eqn:?
      end
  end; simpl_world H; try discriminate H.

(** A Locator [bucket,key] that splits in two has clean components. *)
Lemma encode_two_parts bucket key :
  length (Split (encode bucket key) delimiter) = 2%nat ->
  Contains bucket delimiter = false /\ Contains key delimiter = false /\
  Split (encode bucket key) delimiter = [bucket; key].
Proof.
  unfold encode. rewrite Split_length, Count_app. cbn [Count].
  rewrite Ascii.eqb_refl. intros Hcount.
  assert (Hb : Contains bucket delimiter = false) by (apply Contains_Count; lia).
  assert (Hk : Contains key delimiter = false) by (apply Contains_Count; lia).
  now rewrite (Split_cons _ _ _ Hb), (Split_clean _ _ Hk).
Qed.

(** When decode+sign succeeds on a record that has a Locator. *)
Lemma signed_ok env video s w w0 v :
  VideoURL video = Some s ->
  dbVideoToSignedVideo env video w = (w0, Ok v) ->
  length (Split s delimiter) = 2%nat /\
  exists url,
    PresignGetObject env (nth 0 (Split s delimiter) "")
      (nth 1 (Split s delimiter) "") (30 * Minute) = Ok url /\
    w0 = log (EvPresign (nth 0 (Split s delimiter) "")
                (nth 1 (Split s delimiter) "") (30 * Minute)) w /\
    v = set_VideoURL url video.
Proof.
  intros Hurl. unfold dbVideoToSignedVideo, generatePresignedURL. rewrite Hurl.
  destruct (Nat.eqb_spec (length (Split s delimiter)) 2) as [H2|H2];
    cbn [negb]; [|discriminate].
  destruct (PresignGetObject env _ _ _) as [url|e] eqn:Hsign; [|discriminate].
  intros [= <- <-]. eauto.
Qed.

Lemma upload_success cfg env w w' code v :
  handlerUploadVideo cfg env w = (w', RespJSON code v) ->
  code = StatusOK /\ Success cfg env w w' v.
Proof.
  intros H. unfold_handler. simpl_world H.
  repeat branch H.
  match goal with
  | Hs : dbVideoToSignedVideo _ _ _ = _ |- _ =>
      eapply signed_ok in Hs; [|reflexivity];
      destruct Hs as [H2 [url [Hsign [-> ->]]]]
  end.
  apply encode_two_parts in H2 as (Hb & Hk & Hsplit).
  rewrite Hsplit in *. cbn [nth] in *.
  injection H as <- <- <-. split; [reflexivity|].
  match goal with
  | Hl : _ !! _ = Some _ |- _ =>
      rewrite lookup_insert_eq in Hl; injection Hl as <-
  end.
  match goal with
  | Hm : negb (String.eqb ?t "video/mp4") = false |- _ =>
      assert (Hmedia : t = "video/mp4") by now apply String.eqb_eq, negb_false_iff
  end.
  eapply success_run; try eassumption; try reflexivity.
  - now apply N.eqb_eq, negb_false_iff.
  - now apply Z.ltb_ge.
  - cbn [objects log with_files with_objects with_videos].
    now rewrite lookup_insert_eq, Hmedia.
  - cbn [trace log with_files with_objects with_videos].
    now rewrite <- !app_assoc.
Qed.

End UploadFacts.

(** ** The upload orchestrator *)

Module UploadClaims.
Import Store Strings Monad Codec Upload Outcome Samples.
Import StringFacts Base64Facts AspectFacts UploadFacts.

Lemma updates_app t1 t2 : updates (t1 ++ t2) = updates t1 ++ updates t2.
Proof.
  induction t1 as [|e t1 IH]; [reflexivity|].
  destruct e; cbn; now rewrite ?IH.
Qed.

Lemma staged_app t1 t2 : staged (t1 ++ t2) = staged t1 ++ staged t2.
Proof.
  induction t1 as [|e t1 IH]; [reflexivity|].
  destruct e; cbn; now rewrite ?IH.
Qed.

Lemma HasPrefix_app pre t : HasPrefix (pre +:+ t) pre = true.
Proof.
  unfold HasPrefix. induction pre as [|a pre IH]; [now destruct t|].
  rewrite append_cons. cbn. now destruct (ascii_dec a a).
Qed.

Lemma key_has_prefix aspect name ext :
  HasPrefix (objectKeyOf (keyPrefixOf aspect) name ext)
    (keyPrefixOf aspect +:+ "/") = true.
Proof.
  unfold objectKeyOf.
  replace (keyPrefixOf aspect +:+ "/" +:+ (name +:+ ext))
    with ((keyPrefixOf aspect +:+ "/") +:+ (name +:+ ext)).
  - apply HasPrefix_app.
  - induction (keyPrefixOf aspect) as [|a p IH]; [reflexivity|].
    rewrite !append_cons. now rewrite IH.
Qed.

Lemma keyPrefixOf_clean aspect : Contains (keyPrefixOf aspect) delimiter = false.
Proof.
  unfold keyPrefixOf.
  destruct (String.eqb aspect "16:9"); [reflexivity|].
  destruct (String.eqb aspect "9:16"); reflexivity.
Qed.

(** C2, amended. After a successful upload the record store holds, for the
    fetched record, the Locator [bucket,key] whose key starts with the
    prefix chosen from the classification of the first probed stream:
    "landscape/" for the wide band (as for 1280x720), "portrait/" for the
    tall band (as for 720x1280), "other/" otherwise (as for 640x480). *)
Theorem key_prefix_follows_aspect :
  forall cfg env w w' code v,
    handlerUploadVideo cfg env w = (w', RespJSON code v) ->
    exists stream rest fetched key,
      ffprobe env = Aspect.ProbeStreams (stream :: rest) /\
      videos w' !! ID fetched
        = Some (set_VideoURL (encode (s3Bucket cfg) key) fetched) /\
      Split (encode (s3Bucket cfg) key) delimiter = [s3Bucket cfg; key] /\
      (Aspect.in_wide_band (Aspect.ratio_of stream) = true ->
       HasPrefix key "landscape/" = true) /\
      (Aspect.in_tall_band (Aspect.ratio_of stream) = true ->
       HasPrefix key "portrait/" = true) /\
      (Aspect.in_wide_band (Aspect.ratio_of stream) = false ->
       Aspect.in_tall_band (Aspect.ratio_of stream) = false ->
       HasPrefix key "other/" = true) /\
      (stream = Aspect.mkStream 1280 720 -> HasPrefix key "landscape/" = true) /\
      (stream = Aspect.mkStream 720 1280 -> HasPrefix key "portrait/" = true) /\
      (stream = Aspect.mkStream 640 480 -> HasPrefix key "other/" = true).
Proof.
  intros cfg env w w' code v H.
  apply upload_success in H as [_ []]. subst.
  unfold Aspect.aspectOfProbe in Haspect.
  destruct (ffprobe env) as [| |[|stream rest]]; try discriminate.
  injection Haspect as <-.
  exists stream, rest, fetched,
    (objectKeyOf (keyPrefixOf (Aspect.classify (Aspect.ratio_of stream)))
       (Base64.EncodeToString b) ext).
  pose proof (key_has_prefix (Aspect.classify (Aspect.ratio_of stream))
                (Base64.EncodeToString b) ext) as Hpre.
  split; [reflexivity|]. split; [rewrite Hvideos; apply lookup_insert_eq|].
  split; [unfold encode; rewrite (Split_cons _ _ _ Hbucket);
          now rewrite (Split_clean _ _ Hclean)|].
  repeat split.
  - intros Hb. apply classify_wide_iff in Hb.
    rewrite Hb in Hpre |- *. exact Hpre.
  - intros Hb. apply classify_tall_iff in Hb.
    rewrite Hb in Hpre |- *. exact Hpre.
  - intros Hw Ht.
    assert (Ho : Aspect.classify (Aspect.ratio_of stream) = "other")
      by now apply classify_other_iff.
    rewrite Ho in Hpre |- *. exact Hpre.
  - intros ->. exact Hpre.
  - intros ->. exact Hpre.
  - intros ->. exact Hpre.
Qed.


Lemma key_prefix_follows_aspect_witness :
  exists stream rest fetched key,
    ffprobe (upload_of 1280 720) = Aspect.ProbeStreams (stream :: rest) /\
    videos (fst run_wide) !! ID fetched
      = Some (set_VideoURL (encode (s3Bucket cfg0) key) fetched) /\
    Split (encode (s3Bucket cfg0) key) delimiter = [s3Bucket cfg0; key] /\
    (Aspect.in_wide_band (Aspect.ratio_of stream) = true ->
     HasPrefix key "landscape/" = true) /\
    (Aspect.in_tall_band (Aspect.ratio_of stream) = true ->
     HasPrefix key "portrait/" = true) /\
    (Aspect.in_wide_band (Aspect.ratio_of stream) = false ->
     Aspect.in_tall_band (Aspect.ratio_of stream) = false ->
     HasPrefix key "other/" = true) /\
    (stream = Aspect.mkStream 1280 720 -> HasPrefix key "landscape/" = true) /\
    (stream = Aspect.mkStream 720 1280 -> HasPrefix key "portrait/" = true) /\
    (stream = Aspect.mkStream 640 480 -> HasPrefix key "other/" = true).
Proof.
  apply (key_prefix_follows_aspect cfg0 (upload_of 1280 720) world0
           (fst run_wide) 200
           (signed0 ("landscape/" +:+ name0 +:+ ".mp4"))).
  vm_compute. reflexivity.
Defined.

(** C2 as stated fails: the 1280x720 sample is uploaded successfully and its
    persisted key starts with "landscape/", not with "wide/"; the 720x1280
    sample gets "portrait/", not "tall/". *)
Lemma sample_keys_not_wide_tall :
  snd run_wide = RespJSON 200 (signed0 ("landscape/" +:+ name0 +:+ ".mp4")) /\
  VideoURL <$> (videos (fst run_wide) !! 7%N)
    = Some (Some ("tubely,landscape/" +:+ name0 +:+ ".mp4")) /\
  HasPrefix ("landscape/" +:+ name0 +:+ ".mp4") "wide/" = false /\
  snd run_tall = RespJSON 200 (signed0 ("portrait/" +:+ name0 +:+ ".mp4")) /\
  VideoURL <$> (videos (fst run_tall) !! 7%N)
    = Some (Some ("tubely,portrait/" +:+ name0 +:+ ".mp4")) /\
  HasPrefix ("portrait/" +:+ name0 +:+ ".mp4") "tall/" = false.
Proof. repeat split; vm_compute; reflexivity. Qed.

(** C8. A successful upload makes one update of the record store: the record
    it stores is the fetched record with only the Locator replaced (same
    identity, same owner, same thumbnail reference), stored under the fetched
    record's identity; every other record is as it was. *)
Theorem upload_changes_only_locator :
  forall cfg env w w' code v,
    handlerUploadVideo cfg env w = (w', RespJSON code v) ->
    exists videoID fetched locator,
      uuid_Parse env (req_videoID env) = Ok videoID /\
      videos w !! videoID = Some fetched /\
      exists persisted,
        updates (trace w') = updates (trace w) ++ [persisted] /\
        videos w' = <[ID fetched := persisted]> (videos w) /\
        ID persisted = ID fetched /\
        UserID persisted = UserID fetched /\
        ThumbnailURL persisted = ThumbnailURL fetched /\
        VideoURL persisted = Some locator.
Proof.
  intros cfg env w w' code v H.
  apply upload_success in H as [_ []]. subst.
  exists videoID, fetched,
    (encode (s3Bucket cfg)
       (objectKeyOf (keyPrefixOf aspect) (Base64.EncodeToString b) ext)).
  split; [assumption|]. split; [assumption|].
  eexists. split; [rewrite Htrace, updates_app; reflexivity|].
  split; [exact Hvideos|]. repeat split.
Qed.

Lemma upload_changes_only_locator_witness :
  exists videoID fetched locator,
    uuid_Parse (upload_of 640 480) (req_videoID (upload_of 640 480))
      = Ok videoID /\
    videos world0 !! videoID = Some fetched /\
    exists persisted,
      updates (trace (fst run_other)) = updates (trace world0) ++ [persisted] /\
      videos (fst run_other) = <[ID fetched := persisted]> (videos world0) /\
      ID persisted = ID fetched /\
      UserID persisted = UserID fetched /\
      ThumbnailURL persisted = ThumbnailURL fetched /\
      VideoURL persisted = Some locator.
Proof.
  apply (upload_changes_only_locator cfg0 (upload_of 640 480) world0
           (fst run_other) 200 (signed0 ("other/" +:+ name0 +:+ ".mp4"))).
  vm_compute. reflexivity.
Defined.





Lemma processing_ne t : t <> t +:+ ".processing".
Proof. intros Heq. symmetry in Heq. apply app_eq_self in Heq. discriminate. Qed.

(** C4, where the code departs from it. The remux tool exits non-zero after
    it has created its output file: the request ends with the processing
    error, nothing is put into the object store, no record is updated, the
    staged upload file is removed, but the tool's output file stays. *)
Theorem remux_failure_leaves_artifact :
  let env := with_ffmpeg (RemuxFailed "exit status 1" (Some []))
               (upload_of 1280 720) in
  let out := handlerUploadVideo cfg0 env world0 in
  snd out = RespError 500 "Error processing video for faststart" /\
  staged (trace out.1) = ["/tmp/tubely-upload.mp4123"] /\
  files out.1 !! "/tmp/tubely-upload.mp4123" = None /\
  files out.1 !! "/tmp/tubely-upload.mp4123.processing" = Some [] /\
  objects out.1 = objects world0 /\
  videos out.1 = videos world0 /\
  updates (trace out.1) = [].
Proof. repeat split; vm_compute; reflexivity. Qed.

(** X1. Whenever the remux step fails: nothing is put into the object store, no
    record is updated, and the staged upload file is gone when the handler
    returns; an output file the tool had already created is still there. *)
Theorem remux_failure_effects :
  forall cfg env w w',
    handlerUploadVideo cfg env w
      = (w', RespError StatusInternalServerError
               "Error processing video for faststart") ->
    exists tempfile err partial,
      CreateTemp env = Ok tempfile /\
      ffmpeg env = RemuxFailed err partial /\
      objects w' = objects w /\
      videos w' = videos w /\
      updates (trace w') = updates (trace w) /\
      staged (trace w') = staged (trace w) ++ [tempfile] /\
      files w' !! tempfile = None /\
      files w' !! (tempfile +:+ ".processing")
        = match partial with
          | Some data => Some data
          | None => files w !! (tempfile +:+ ".processing")
          end.
Proof.
  intros cfg env w w' H. unfold_handler. simpl_world H.
  repeat branch H;
    injection H as <-;
    do 3 eexists; (split; [reflexivity|]); (split; [reflexivity|]);
    cbn [fst snd trace files objects videos log with_files];
    rewrite <- !app_assoc, updates_app, staged_app; cbn [app updates staged];
    rewrite app_nil_r, lookup_delete_eq, lookup_delete_ne
      by apply processing_ne.
  - rewrite lookup_insert_eq. repeat split.
  - rewrite !lookup_insert_ne by apply processing_ne. repeat split.
Qed.

Lemma remux_failure_effects_witness :
  exists tempfile err partial,
    CreateTemp (with_ffmpeg (RemuxFailed "exit status 1" None) (upload_of 1280 720))
      = Ok tempfile /\
    ffmpeg (with_ffmpeg (RemuxFailed "exit status 1" None) (upload_of 1280 720))
      = RemuxFailed err partial /\
    objects (fst (handlerUploadVideo cfg0
       (with_ffmpeg (RemuxFailed "exit status 1" None) (upload_of 1280 720))
       world0)) = objects world0 /\
    videos (fst (handlerUploadVideo cfg0
       (with_ffmpeg (RemuxFailed "exit status 1" None) (upload_of 1280 720))
       world0)) = videos world0 /\
    updates (trace (fst (handlerUploadVideo cfg0
       (with_ffmpeg (RemuxFailed "exit status 1" None) (upload_of 1280 720))
       world0))) = updates (trace world0) /\
    staged (trace (fst (handlerUploadVideo cfg0
       (with_ffmpeg (RemuxFailed "exit status 1" None) (upload_of 1280 720))
       world0))) = staged (trace world0) ++ [tempfile] /\
    files (fst (handlerUploadVideo cfg0
       (with_ffmpeg (RemuxFailed "exit status 1" None) (upload_of 1280 720))
       world0)) !! tempfile = None /\
    files (fst (handlerUploadVideo cfg0
       (with_ffmpeg (RemuxFailed "exit status 1" None) (upload_of 1280 720))
       world0)) !! (tempfile +:+ ".processing")
      = match partial with
        | Some data => Some data
        | None => files world0 !! (tempfile +:+ ".processing")
        end.
Proof.
  apply (remux_failure_effects cfg0
           (with_ffmpeg (RemuxFailed "exit status 1" None) (upload_of 1280 720))
           world0).
  vm_compute. reflexivity.
Defined.

End UploadClaims.

(** ** More about the upload orchestrator *)

Module UploadRuns.
Import Store Strings Monad Codec Upload Outcome Samples MoreSamples.
Import StringFacts Base64Facts AspectFacts UploadFacts.

(** Every step of the handler and of decode+sign, unfolded. *)
Ltac unfold_run :=
  unfold_handler; unfold dbVideoToSignedVideo, generatePresignedURL in *.

Ltac simpl_final :=
  cbn [fst snd trace files objects videos log with_files with_objects
       with_videos];
  rewrite <- ?app_assoc, ?UploadClaims.staged_app, ?UploadClaims.updates_app;
  cbn [app staged updates]; rewrite ?app_nil_r.

(** X2. Whatever the outcome of a request, the handler creates at most one
    staged file, and that file does not exist any more when the handler
    returns. *)
Theorem staged_file_always_removed :
  forall cfg env w,
    exists l,
      staged (trace (fst (handlerUploadVideo cfg env w)))
        = staged (trace w) ++ l /\
      (length l <= 1)%nat /\
      Forall (fun name =>
                files (fst (handlerUploadVideo cfg env w)) !! name = None) l.
Proof.
  intros cfg env w.
  destruct (handlerUploadVideo cfg env w) as [w' resp] eqn:H.
  unfold_run. simpl_world H.
  repeat branch H; injection H as <- <-; simpl_final;
    first
      [ exists []; rewrite app_nil_r; repeat split; [cbn; lia|constructor]
      | eexists [_]; repeat split;
        [cbn; lia|repeat constructor; apply lookup_delete_eq] ].
Qed.



(** X4. The record store is written only after the object is in the object
    store: a request makes no update call at all and leaves the records as
    they were, or it makes exactly one, for the fetched record with the
    Locator of an object that the store holds, tagged "video/mp4", when the
    handler returns. *)
Theorem record_written_only_after_put :
  forall cfg env w,
    (updates (trace (fst (handlerUploadVideo cfg env w))) = updates (trace w) /\
     videos (fst (handlerUploadVideo cfg env w)) = videos w) \/
    (exists fetched key obj,
       updates (trace (fst (handlerUploadVideo cfg env w)))
         = updates (trace w)
           ++ [set_VideoURL (encode (s3Bucket cfg) key) fetched] /\
       objects (fst (handlerUploadVideo cfg env w)) !! (s3Bucket cfg, key)
         = Some obj /\
       ContentType obj = "video/mp4" /\
       (videos (fst (handlerUploadVideo cfg env w)) = videos w \/
        videos (fst (handlerUploadVideo cfg env w))
          = <[ID fetched := set_VideoURL (encode (s3Bucket cfg) key) fetched]>
              (videos w))).
Proof.
  intros cfg env w.
  destruct (handlerUploadVideo cfg env w) as [w' resp] eqn:H.
  unfold_run. simpl_world H.
  repeat branch H; injection H as <- <-; simpl_final;
    first
      [ left; split; reflexivity
      | right; do 3 eexists; split; [reflexivity|];
        split; [apply lookup_insert_eq|]; cbn [ContentType];
        split; [now apply String.eqb_eq, negb_false_iff|auto] ].
Qed.

(** X5. When the record store refuses the update, the request ends with the
    internal-error response and the records are as before, but the object
    already put stays in the object store. *)
Theorem update_failure_orphans_object :
  forall cfg env w w' resp e persisted,
    handlerUploadVideo cfg env w = (w', resp) ->
    UpdateVideo_err env = Some e ->
    updates (trace w') = updates (trace w) ++ [persisted] ->
    resp = RespError StatusInternalServerError "Something went wrong" /\
    videos w' = videos w /\
    exists key obj,
      VideoURL persisted = Some (encode (s3Bucket cfg) key) /\
      objects w' !! (s3Bucket cfg, key) = Some obj.
Proof.
  intros cfg env w w' resp e persisted H He Hup.
  unfold_run. simpl_world H.
  repeat (branch H; try congruence); injection H as <- <-;
    revert Hup; simpl_final; intros Hup;
    first
      [ apply app_inv_head in Hup
      | rewrite <- (app_nil_r (updates (trace w))) in Hup at 1;
        apply app_inv_head in Hup ];
    try discriminate Hup.
  injection Hup as <-. repeat split.
  do 2 eexists. split; [reflexivity|apply lookup_insert_eq].
Qed.

Lemma update_failure_orphans_object_witness :
  snd (handlerUploadVideo cfg0
         (with_update_err (errorString "database is locked") (upload_of 1280 720))
         world0)
    = RespError StatusInternalServerError "Something went wrong" /\
  videos (fst (handlerUploadVideo cfg0
         (with_update_err (errorString "database is locked") (upload_of 1280 720))
         world0)) = videos world0 /\
  exists key obj,
    VideoURL (set_VideoURL ("tubely,landscape/" +:+ name0 +:+ ".mp4") video0)
      = Some (encode (s3Bucket cfg0) key) /\
    objects (fst (handlerUploadVideo cfg0
         (with_update_err (errorString "database is locked") (upload_of 1280 720))
         world0)) !! (s3Bucket cfg0, key) = Some obj.
Proof.
  apply (update_failure_orphans_object cfg0
           (with_update_err (errorString "database is locked") (upload_of 1280 720))
           world0 _ _ (errorString "database is locked")
           (set_VideoURL ("tubely,landscape/" +:+ name0 +:+ ".mp4") video0));
    vm_compute; reflexivity.
Defined.

(** X6. The response that reports a failure of the final decode+sign step
    comes after the upload has taken effect: the object is in the object
    store and the record already carries its Locator. *)
Theorem sign_failure_after_persist :
  forall cfg env w w',
    handlerUploadVideo cfg env w
      = (w', RespError StatusInternalServerError
               "error mapping db video to signed video") ->
    exists fetched key obj,
      videos w'
        = <[ID fetched := set_VideoURL (encode (s3Bucket cfg) key) fetched]>
            (videos w) /\
      objects w' !! (s3Bucket cfg, key) = Some obj.
Proof.
  intros cfg env w w' H. unfold_run. simpl_world H.
  repeat branch H; injection H as <-; simpl_final;
    do 3 eexists; (split; [reflexivity|apply lookup_insert_eq]).
Qed.

Lemma sign_failure_after_persist_witness :
  exists fetched key obj,
    videos (fst (handlerUploadVideo cfg0
                   (with_signer (fun _ _ _ => Err (errorString "no credentials"))
                      (upload_of 1280 720)) world0))
      = <[ID fetched := set_VideoURL (encode (s3Bucket cfg0) key) fetched]>
          (videos world0) /\
    objects (fst (handlerUploadVideo cfg0
                   (with_signer (fun _ _ _ => Err (errorString "no credentials"))
                      (upload_of 1280 720)) world0)) !! (s3Bucket cfg0, key)
      = Some obj.
Proof.
  apply (sign_failure_after_persist cfg0
           (with_signer (fun _ _ _ => Err (errorString "no credentials"))
              (upload_of 1280 720)) world0).
  vm_compute. reflexivity.
Defined.

(** X7. A request answered with 401 has had nothing done for it beyond the
    installation of the body limit: the body was not read, no file was
    created, nothing was put or updated. *)
Theorem unauthorized_touches_nothing :
  forall cfg env w w' msg,
    handlerUploadVideo cfg env w = (w', RespError StatusUnauthorized msg) ->
    trace w' = trace w ++ [EvLimitBody uploadLimit] /\
    files w' = files w /\ objects w' = objects w /\ videos w' = videos w.
Proof.
  intros cfg env w w' msg H. unfold_run. simpl_world H.
  repeat branch H; injection H as <- <-; simpl_final; repeat split.
Qed.

Lemma unauthorized_touches_nothing_witness :
  trace (fst (handlerUploadVideo cfg0
                (with_jwt (fun _ _ => Ok 2%N) (upload_of 1280 720)) world0))
    = trace world0 ++ [EvLimitBody uploadLimit] /\
  files (fst (handlerUploadVideo cfg0
                (with_jwt (fun _ _ => Ok 2%N) (upload_of 1280 720)) world0))
    = files world0 /\
  objects (fst (handlerUploadVideo cfg0
                  (with_jwt (fun _ _ => Ok 2%N) (upload_of 1280 720)) world0))
    = objects world0 /\
  videos (fst (handlerUploadVideo cfg0
                 (with_jwt (fun _ _ => Ok 2%N) (upload_of 1280 720)) world0))
    = videos world0.
Proof.
  apply (unauthorized_touches_nothing cfg0
           (with_jwt (fun _ _ => Ok 2%N) (upload_of 1280 720)) world0 _
           "Unauthorized").
  vm_compute. reflexivity.
Defined.

(** X8. Once the identifier parses and the token validates, the answer is
    401 "Unauthorized" exactly when the record is missing or belongs to
    another user. *)
Theorem ownership_gate :
  forall cfg env w videoID token userID,
    uuid_Parse env (req_videoID env) = Ok videoID ->
    GetBearerToken env = Ok token ->
    ValidateJWT env token (jwtSecret cfg) = Ok userID ->
    (snd (handlerUploadVideo cfg env w)
       = RespError StatusUnauthorized "Unauthorized"
     <-> match videos w !! videoID with
         | Some v => UserID v <> userID
         | None => True
         end).
Proof.
  intros cfg env w videoID token userID Hid Htok Hjwt.
  destruct (handlerUploadVideo cfg env w) as [w' resp] eqn:H.
  unfold_run. simpl_world H. rewrite Hid, Htok, Hjwt in H. simpl_world H.
  destruct (videos w !! videoID) as [v|] eqn:Hv; rewrite ?Hv in H;
    simpl_world H.
  - destruct (N.eqb (UserID v) userID) eqn:E; rewrite ?E in H;
      cbn [negb] in H; simpl_world H.
    + apply N.eqb_eq in E. split; [|tauto].
      intros Hresp. cbn [snd] in Hresp. subst resp. exfalso.
      repeat branch H.
    + apply N.eqb_neq in E. injection H as <- <-. tauto.
  - injection H as <- <-. tauto.
Qed.

Lemma ownership_gate_witness :
  snd (handlerUploadVideo cfg0
         (with_jwt (fun _ _ => Ok 2%N) (upload_of 1280 720)) world0)
    = RespError StatusUnauthorized "Unauthorized"
  <-> match videos world0 !! 7%N with
      | Some v => UserID v <> 2%N
      | None => True
      end.
Proof.
  apply (ownership_gate cfg0 (with_jwt (fun _ _ => Ok 2%N) (upload_of 1280 720))
           world0 7%N "token" 2%N); reflexivity.
Defined.



(** X10. The handler answers with status 200 and a record whose reference
    is the URL the signer returned, or with an error of status 400, 401 or
    500; no other status is ever produced. *)
Theorem response_statuses :
  forall cfg env w,
    match snd (handlerUploadVideo cfg env w) with
    | RespJSON code v =>
        code = 200 /\
        exists bucket key url,
          PresignGetObject env bucket key (30 * Minute) = Ok url /\
          VideoURL v = Some url
    | RespError code _ => code = 400 \/ code = 401 \/ code = 500
    end.
Proof.
  intros cfg env w.
  destruct (handlerUploadVideo cfg env w) as [w' resp] eqn:H.
  unfold_run. simpl_world H.
  repeat branch H; injection H as <- <-; cbn [snd];
    try (unfold StatusBadRequest, StatusUnauthorized,
           StatusInternalServerError; tauto).
  split; [reflexivity|]. do 3 eexists. cbn [VideoURL set_VideoURL].
  split; [eassumption|reflexivity].
Qed.

(** X11. With a storage-container name that contains the delimiter no
    upload ever succeeds: every request is answered with an error. *)
Theorem delimiter_in_bucket_never_succeeds :
  forall cfg env w,
    Contains (s3Bucket cfg) delimiter = true ->
    exists code msg, snd (handlerUploadVideo cfg env w) = RespError code msg.
Proof.
  intros cfg env w Hbad.
  destruct (handlerUploadVideo cfg env w) as [w' [code msg|code v]] eqn:H;
    cbn [snd]; [eauto|].
  apply upload_success in H as [_ []]. congruence.
Qed.

Lemma delimiter_in_bucket_never_succeeds_witness :
  exists code msg,
    snd (handlerUploadVideo (mkConfig "media,eu" "secret") (upload_of 1280 720)
           world0) = RespError code msg.
Proof.
  apply (delimiter_in_bucket_never_succeeds (mkConfig "media,eu" "secret")
           (upload_of 1280 720) world0).
  reflexivity.
Defined.

(** X12. The remux step never touches its input: the file at [filePath] and
    every file other than [filePath.processing] are as before, as are the
    object and record stores; when it succeeds, the path it returns is
    [filePath.processing], distinct from the input, and holds the tool's
    output. *)
Theorem remux_writes_sibling_only :
  forall env filePath w,
    let out := processVideoForFastStart env filePath w in
    files out.1 !! filePath = files w !! filePath /\
    (forall p, p <> filePath +:+ ".processing" ->
               files out.1 !! p = files w !! p) /\
    objects out.1 = objects w /\ videos out.1 = videos w /\
    match out.2 with
    | Ok path =>
        path = filePath +:+ ".processing" /\ path <> filePath /\
        exists data, ffmpeg env = RemuxDone data /\ files out.1 !! path = Some data
    | Err e => exists err partial, ffmpeg env = RemuxFailed err partial
    end.
Proof.
  intros env filePath w. cbn zeta. unfold processVideoForFastStart.
  pose proof (UploadClaims.processing_ne filePath) as Hne.
  destruct (ffmpeg env) as [data|err [data|]];
    cbn [fst snd files objects videos log with_files];
    rewrite ?lookup_insert_ne by congruence.
  - repeat split; try congruence.
    + intros p Hp. now rewrite lookup_insert_ne by congruence.
    + exists data. split; [reflexivity|apply lookup_insert_eq].
  - repeat split; eauto.
    intros p Hp. now rewrite lookup_insert_ne by congruence.
  - repeat split; eauto.
Qed.

Lemma remux_writes_sibling_only_witness :
  files (processVideoForFastStart (upload_of 1280 720) "/tmp/a"
           (with_files {[ "/tmp/a" := [x01]; "/tmp/b" := [x02] ]} world0)).1
    !! "/tmp/b" = Some [x02].
Proof.
  rewrite (proj1 (proj2 (remux_writes_sibling_only (upload_of 1280 720) "/tmp/a"
             (with_files {[ "/tmp/a" := [x01]; "/tmp/b" := [x02] ]} world0)))
             "/tmp/b").
  - reflexivity.
  - discriminate.
Defined.

(** X13. The steps of a request happen in one fixed order and none is
    skipped: what a run adds to the trace is an initial part of
    limit, read, stage, probe, remux, put, update, sign, followed by the
    removals of the files it has registered for removal. *)
Theorem pipeline_order :
  forall cfg env w,
    exists tempfile key persisted bucket' key' n removals,
      trace (fst (handlerUploadVideo cfg env w))
        = trace w
          ++ take n [EvLimitBody uploadLimit; EvReadBody; EvCreateTemp tempfile;
                     EvProbe tempfile;
                     EvRemux tempfile (tempfile +:+ ".processing");
                     EvPutObject (s3Bucket cfg) key; EvUpdateVideo persisted;
                     EvPresign bucket' key' (30 * Minute)]
          ++ removals /\
      (removals = [] \/ removals = [EvRemove tempfile] \/
       removals = [EvRemove (tempfile +:+ ".processing"); EvRemove tempfile]).
Proof.
  intros cfg env w.
  destruct (handlerUploadVideo cfg env w) as [w' resp] eqn:H.
  unfold_run. simpl_world H.
  repeat branch H; injection H as <- <-; simpl_final;
    first
      [ solve [do 5 eexists; exists 8%nat; eexists; cbn [take app];
               split; [reflexivity|auto]]
      | solve [do 5 eexists; exists 7%nat; eexists; cbn [take app];
               split; [reflexivity|auto]]
      | solve [do 5 eexists; exists 6%nat; eexists; cbn [take app];
               split; [reflexivity|auto]]
      | solve [do 5 eexists; exists 5%nat; eexists; cbn [take app];
               split; [reflexivity|auto]]
      | solve [do 5 eexists; exists 4%nat; eexists; cbn [take app];
               split; [reflexivity|auto]]
      | solve [do 5 eexists; exists 3%nat; eexists; cbn [take app];
               split; [reflexivity|auto]]
      | solve [exists "", "", zeroVideo, "", ""; exists 2%nat; eexists;
               cbn [take app]; split; [reflexivity|auto]]
      | solve [exists "", "", zeroVideo, "", ""; exists 1%nat; eexists;
               cbn [take app]; split; [reflexivity|auto]] ].
  Unshelve. all: first [exact "" | exact zeroVideo].
Qed.

End UploadRuns.

(** ** The generated identifier *)

Module IdentifierFacts.
Import Store Strings Base64 Base64Index Upload Samples MoreSamples.
Import StringFacts Base64Facts.
Local Open Scope N_scope.

Lemma uint_bound b : uint b < 256.
Proof. unfold uint. pose proof (Byte.to_N_bounded b). lia. Qed.

Lemma uint_inj a b : uint a = uint b -> a = b.
Proof.
  unfold uint. intros H.
  pose proof (Byte.of_to_N a) as Ha. rewrite H, Byte.of_to_N in Ha.
  now injection Ha.
Qed.

Lemma value_of_encode i : i < 64 -> value_of (encode i) = i.
Proof.
  intros Hi.
  assert (Hall : forallb (fun n => N.eqb (value_of (encode (N.of_nat n)))
                                     (N.of_nat n)) (seq 0 64) = true)
    by (vm_compute; reflexivity).
  rewrite forallb_forall in Hall.
  specialize (Hall (N.to_nat i)). rewrite N2Nat.id in Hall.
  apply N.eqb_eq, Hall, in_seq. lia.
Qed.

Lemma encode_inj i j : i < 64 -> j < 64 -> encode i = encode j -> i = j.
Proof.
  intros Hi Hj H. rewrite <- (value_of_encode i Hi), <- (value_of_encode j Hj).
  now rewrite H.
Qed.

Lemma lor_shiftl_add a b n : b < 2 ^ n -> N.lor (N.shiftl a n) b = a * 2 ^ n + b.
Proof.
  intros Hb.
  assert (Hland : N.land (N.shiftl a n) b = 0).
  { apply N.bits_inj_0. intros i. rewrite N.land_spec.
    destruct (N.lt_ge_cases i n) as [Hlt|Hge].
    - now rewrite N.shiftl_spec_low.
    - rewrite <- (N.mod_small b (2 ^ n)) by assumption.
      rewrite N.mod_pow2_bits_high by assumption. apply andb_false_r. }
  rewrite <- N.lxor_lor, <- N.add_nocarry_lxor by assumption.
  now rewrite N.shiftl_mul_pow2.
Qed.

(** The 24-bit group of one, two and three source bytes, as a number. *)
Lemma val1 b0 : N.shiftl (uint b0) 16 = uint b0 * 65536.
Proof. now rewrite N.shiftl_mul_pow2. Qed.

Lemma val2 b0 b1 :
  N.lor (N.shiftl (uint b0) 16) (N.shiftl (uint b1) 8)
    = uint b0 * 65536 + uint b1 * 256.
Proof.
  pose proof (uint_bound b1).
  rewrite (N.shiftl_mul_pow2 (uint b1)), lor_shiftl_add; [reflexivity|].
  change (2 ^ 8) with 256. change (2 ^ 16) with 65536. lia.
Qed.

Lemma val3 b0 b1 b2 :
  N.lor (N.lor (N.shiftl (uint b0) 16) (N.shiftl (uint b1) 8)) (uint b2)
    = uint b0 * 65536 + uint b1 * 256 + uint b2.
Proof.
  rewrite val2.
  replace (uint b0 * 65536 + uint b1 * 256)
    with (N.shiftl (uint b0 * 256 + uint b1) 8)
    by (rewrite N.shiftl_mul_pow2; change (2 ^ 8) with 256; lia).
  rewrite lor_shiftl_add by apply uint_bound. now rewrite N.shiftl_mul_pow2.
Qed.

Lemma six_spec val k : N.land (N.shiftr val k) 63 = (val / 2 ^ k) mod 64.
Proof.
  rewrite N.shiftr_div_pow2. change 63 with (N.ones 6). now rewrite N.land_ones.
Qed.

Lemma six_bound val k : N.land (N.shiftr val k) 63 < 64.
Proof. rewrite six_spec. now apply N.mod_lt. Qed.

Lemma sextet_inj a b k :
  sextet a k = sextet b k -> (a / 2 ^ k) mod 64 = (b / 2 ^ k) mod 64.
Proof.
  unfold sextet. intros H. apply encode_inj in H; try apply six_bound.
  now rewrite !six_spec in H.
Qed.

(** The sextets at 18, 12 and 6 fix everything of a group above its low six
    bits; with the sextet at 0 they fix the group. *)
Lemma high_sextets_determine a b :
  a < 16777216 -> b < 16777216 ->
  (a / 2 ^ 18) mod 64 = (b / 2 ^ 18) mod 64 ->
  (a / 2 ^ 12) mod 64 = (b / 2 ^ 12) mod 64 ->
  (a / 2 ^ 6) mod 64 = (b / 2 ^ 6) mod 64 ->
  a / 64 = b / 64.
Proof.
  change (2 ^ 18) with 262144. change (2 ^ 12) with 4096. change (2 ^ 6) with 64.
  intros Ha Hb H18 H12 H6.
  pose proof (N.div_mod (a / 64) 64 ltac:(lia)) as Ea1.
  pose proof (N.div_mod (a / 4096) 64 ltac:(lia)) as Ea2.
  pose proof (N.div_mod (b / 64) 64 ltac:(lia)) as Eb1.
  pose proof (N.div_mod (b / 4096) 64 ltac:(lia)) as Eb2.
  rewrite !N.Div0.div_div in *. change (64 * 64) with 4096 in *.
  change (4096 * 64) with 262144 in *.
  assert (a / 262144 < 64) by (apply N.Div0.div_lt_upper_bound; lia).
  assert (b / 262144 < 64) by (apply N.Div0.div_lt_upper_bound; lia).
  rewrite (N.mod_small (a / 262144)) in H18 by assumption.
  rewrite (N.mod_small (b / 262144)) in H18 by assumption.
  lia.
Qed.

Lemma sextets_determine a b :
  a < 16777216 -> b < 16777216 ->
  (a / 2 ^ 18) mod 64 = (b / 2 ^ 18) mod 64 ->
  (a / 2 ^ 12) mod 64 = (b / 2 ^ 12) mod 64 ->
  (a / 2 ^ 6) mod 64 = (b / 2 ^ 6) mod 64 ->
  (a / 2 ^ 0) mod 64 = (b / 2 ^ 0) mod 64 ->
  a = b.
Proof.
  intros Ha Hb H18 H12 H6 H0.
  pose proof (high_sextets_determine a b Ha Hb H18 H12 H6) as Hq.
  change (2 ^ 0) with 1 in H0. rewrite !N.div_1_r in H0.
  pose proof (N.div_mod a 64 ltac:(lia)). pose proof (N.div_mod b 64 ltac:(lia)).
  lia.
Qed.

Lemma two_sextets_determine a b :
  a < 16777216 -> b < 16777216 ->
  (a / 2 ^ 18) mod 64 = (b / 2 ^ 18) mod 64 ->
  (a / 2 ^ 12) mod 64 = (b / 2 ^ 12) mod 64 ->
  a / 4096 = b / 4096.
Proof.
  change (2 ^ 18) with 262144. change (2 ^ 12) with 4096.
  intros Ha Hb H18 H12.
  pose proof (N.div_mod (a / 4096) 64 ltac:(lia)) as Ea2.
  pose proof (N.div_mod (b / 4096) 64 ltac:(lia)) as Eb2.
  rewrite !N.Div0.div_div in *. change (4096 * 64) with 262144 in *.
  assert (a / 262144 < 64) by (apply N.Div0.div_lt_upper_bound; lia).
  assert (b / 262144 < 64) by (apply N.Div0.div_lt_upper_bound; lia).
  rewrite (N.mod_small (a / 262144)) in H18 by assumption.
  rewrite (N.mod_small (b / 262144)) in H18 by assumption.
  lia.
Qed.

Lemma group1_inj a0 b0 :
  sextet (N.shiftl (uint a0) 16) 18 = sextet (N.shiftl (uint b0) 16) 18 ->
  sextet (N.shiftl (uint a0) 16) 12 = sextet (N.shiftl (uint b0) 16) 12 ->
  a0 = b0.
Proof.
  intros H18%sextet_inj H12%sextet_inj. rewrite !val1 in *.
  pose proof (uint_bound a0). pose proof (uint_bound b0).
  assert (Ba : uint a0 * 65536 < 16777216) by lia.
  assert (Bb : uint b0 * 65536 < 16777216) by lia.
  pose proof (two_sextets_determine _ _ Ba Bb H18 H12) as Hq.
  replace (uint a0 * 65536) with (uint a0 * 16 * 4096) in Hq by lia.
  replace (uint b0 * 65536) with (uint b0 * 16 * 4096) in Hq by lia.
  rewrite !N.div_mul in Hq by lia. apply uint_inj. lia.
Qed.

Lemma group2_inj a0 a1 b0 b1 :
  let va := N.lor (N.shiftl (uint a0) 16) (N.shiftl (uint a1) 8) in
  let vb := N.lor (N.shiftl (uint b0) 16) (N.shiftl (uint b1) 8) in
  sextet va 18 = sextet vb 18 -> sextet va 12 = sextet vb 12 ->
  sextet va 6 = sextet vb 6 ->
  a0 = b0 /\ a1 = b1.
Proof.
  cbn zeta. intros H18%sextet_inj H12%sextet_inj H6%sextet_inj.
  rewrite !val2 in *.
  pose proof (uint_bound a0). pose proof (uint_bound b0).
  pose proof (uint_bound a1). pose proof (uint_bound b1).
  assert (Ba : uint a0 * 65536 + uint a1 * 256 < 16777216) by lia.
  assert (Bb : uint b0 * 65536 + uint b1 * 256 < 16777216) by lia.
  pose proof (high_sextets_determine _ _ Ba Bb H18 H12 H6) as Hq.
  replace (uint a0 * 65536 + uint a1 * 256)
    with ((uint a0 * 1024 + uint a1 * 4) * 64) in Hq by lia.
  replace (uint b0 * 65536 + uint b1 * 256)
    with ((uint b0 * 1024 + uint b1 * 4) * 64) in Hq by lia.
  rewrite !N.div_mul in Hq by lia.
  split; apply uint_inj; lia.
Qed.

Lemma group3_inj a0 a1 a2 b0 b1 b2 :
  let va := N.lor (N.lor (N.shiftl (uint a0) 16) (N.shiftl (uint a1) 8))
                  (uint a2) in
  let vb := N.lor (N.lor (N.shiftl (uint b0) 16) (N.shiftl (uint b1) 8))
                  (uint b2) in
  sextet va 18 = sextet vb 18 -> sextet va 12 = sextet vb 12 ->
  sextet va 6 = sextet vb 6 -> sextet va 0 = sextet vb 0 ->
  a0 = b0 /\ a1 = b1 /\ a2 = b2.
Proof.
  cbn zeta.
  intros H18%sextet_inj H12%sextet_inj H6%sextet_inj H0%sextet_inj.
  rewrite !val3 in *.
  pose proof (uint_bound a0). pose proof (uint_bound b0).
  pose proof (uint_bound a1). pose proof (uint_bound b1).
  pose proof (uint_bound a2). pose proof (uint_bound b2).
  assert (Ba : uint a0 * 65536 + uint a1 * 256 + uint a2 < 16777216) by lia.
  assert (Bb : uint b0 * 65536 + uint b1 * 256 + uint b2 < 16777216) by lia.
  pose proof (sextets_determine _ _ Ba Bb H18 H12 H6 H0) as Hv.
  repeat split; apply uint_inj; lia.
Qed.

Lemma EncodeToString_inj_upto n :
  forall a b, (length a <= n)%nat ->
              EncodeToString a = EncodeToString b -> a = b.
Proof.
  induction n as [|n IH]; intros a b Hlen H.
  - destruct a; [|cbn in Hlen; lia].
    destruct b as [|b0 [|b1 [|b2 br]]]; [reflexivity|discriminate..].
  - destruct a as [|a0 [|a1 [|a2 ar]]], b as [|b0 [|b1 [|b2 br]]];
      cbn [EncodeToString] in H; cbn zeta in H;
      try reflexivity; try discriminate H.
    + injection H as H18 H12. now rewrite (group1_inj a0 b0).
    + injection H as H18 H12 H6.
      now destruct (group2_inj a0 a1 b0 b1 H18 H12 H6) as [-> ->].
    + injection H as H18 H12 H6 H0 Hrest.
      destruct (group3_inj a0 a1 a2 b0 b1 b2 H18 H12 H6 H0) as (-> & -> & ->).
      repeat f_equal. apply IH; [|assumption]. cbn in Hlen. lia.
Qed.

Lemma EncodeToString_length_upto n :
  forall src, (length src <= n)%nat ->
    String.length (EncodeToString src) = ((4 * length src + 2) / 3)%nat.
Proof.
  induction n as [|n IH]; intros src Hlen.
  - destruct src; [reflexivity|cbn in Hlen; lia].
  - destruct src as [|b0 [|b1 [|b2 rest]]]; try reflexivity.
    cbn [EncodeToString String.length length]. cbn zeta.
    rewrite IH by (cbn in Hlen; lia).
    replace (4 * S (S (S (length rest))) + 2)%nat
      with (4 * 3 + (4 * length rest + 2))%nat by lia.
    rewrite Nat.div_add_l by lia. lia.
Qed.

Lemma EncodeToString_alphabet src :
  Forall (fun c => In c encodeURL) (list_ascii_of_string (EncodeToString src)).
Proof.
  assert (Henc : forall i, In (encode i) encodeURL).
  { intros i. unfold encode.
    destruct (nth_in_or_default (N.to_nat i) encodeURL "A"%char) as [Hin| ->];
      [exact Hin|]. cbn. auto. }
  assert (H : forall n src, (length src <= n)%nat ->
            Forall (fun c => In c encodeURL)
              (list_ascii_of_string (EncodeToString src))).
  { induction n as [|n IH]; intros l Hlen.
    - destruct l; [constructor|cbn in Hlen; lia].
    - destruct l as [|b0 [|b1 [|b2 rest]]];
        cbn [EncodeToString list_ascii_of_string]; cbn zeta;
        repeat (constructor; [apply Henc|]); try constructor.
      apply IH. cbn in Hlen. lia. }
  now apply (H (length src)).
Qed.

(** X14. The encoding is injective: two byte strings with the same encoded
    identifier are the same byte string. *)
Theorem EncodeToString_injective :
  forall a b, EncodeToString a = EncodeToString b -> a = b.
Proof. intros a b. now apply (EncodeToString_inj_upto (length a)). Qed.

Lemma EncodeToString_injective_witness : [x4d; x61] = [x4d; x61].
Proof. apply (EncodeToString_injective [x4d; x61] [x4d; x61]). reflexivity. Defined.

(** X15. Whatever the random source delivers, the bytes the handler encodes
    are exactly 32, and the identifier made of them has 43 characters, all
    from the URL-safe alphabet: letters, digits, '-' and '_'. *)
Theorem identifier_shape :
  forall env b,
    rand_Read env = Ok b ->
    length b = 32%nat /\
    String.length (EncodeToString b) = 43%nat /\
    Forall (fun c => In c encodeURL) (list_ascii_of_string (EncodeToString b)).
Proof.
  intros env b H.
  assert (Hb : b = take 32 (entropy env ++ replicate 32 x00)).
  { unfold rand_Read in H. destruct (rand_err env); congruence. }
  assert (Hlen : length b = 32%nat).
  { rewrite Hb, length_take, length_app, length_replicate. lia. }
  split; [exact Hlen|]. split; [|apply EncodeToString_alphabet].
  rewrite (EncodeToString_length_upto (length b) b (Nat.le_refl _)), Hlen.
  reflexivity.
Qed.

Lemma identifier_shape_witness :
  length (take 32 ([xde; xad; xbe; xef] ++ replicate 32 x00)) = 32%nat /\
  String.length (EncodeToString (take 32 ([xde; xad; xbe; xef] ++ replicate 32 x00)))
    = 43%nat /\
  Forall (fun c => In c encodeURL)
    (list_ascii_of_string
       (EncodeToString (take 32 ([xde; xad; xbe; xef] ++ replicate 32 x00)))).
Proof.
  apply (identifier_shape (with_entropy [xde; xad; xbe; xef] (upload_of 1280 720))).
  reflexivity.
Defined.

Lemma cut_at_first p1 p2 r1 r2 c :
  Contains p1 c = false -> Contains p2 c = false ->
  p1 +:+ String c r1 = p2 +:+ String c r2 -> p1 = p2 /\ r1 = r2.
Proof.
  revert p2. induction p1 as [|a p1 IH]; intros [|b p2];
    rewrite ?append_nil, ?append_cons; cbn [Contains]; intros H1 H2 H.
  - injection H as ->. auto.
  - injection H as <- _. rewrite Ascii.eqb_refl in H2. discriminate.
  - injection H as -> _. rewrite Ascii.eqb_refl in H1. discriminate.
  - injection H as -> H.
    apply orb_false_elim in H1 as [_ H1]. apply orb_false_elim in H2 as [_ H2].
    destruct (IH p2 H1 H2 H) as [-> ->]. auto.
Qed.

Lemma app_inj_same_length n1 n2 e1 e2 :
  String.length n1 = String.length n2 ->
  n1 +:+ e1 = n2 +:+ e2 -> n1 = n2 /\ e1 = e2.
Proof.
  revert n2. induction n1 as [|a n1 IH]; intros [|b n2];
    rewrite ?append_nil, ?append_cons; cbn [String.length]; intros Hl H;
    try discriminate Hl.
  - auto.
  - injection H as -> H. injection Hl as Hl.
    destruct (IH n2 Hl H) as [-> ->]. auto.
Qed.

Lemma keyPrefixOf_no_slash aspect : Contains (keyPrefixOf aspect) "/"%char = false.
Proof.
  unfold keyPrefixOf.
  destruct (String.eqb aspect "16:9"); [reflexivity|].
  destruct (String.eqb aspect "9:16"); reflexivity.
Qed.

(** X16. An object key determines what it was made of: two keys built from
    random byte strings of the same length are equal only when prefix,
    random bytes and extension are all equal; so keys collide only when the
    random bytes do. *)
Theorem object_key_injective :
  forall a1 a2 b1 b2 e1 e2,
    length b1 = length b2 ->
    objectKeyOf (keyPrefixOf a1) (EncodeToString b1) e1
      = objectKeyOf (keyPrefixOf a2) (EncodeToString b2) e2 ->
    keyPrefixOf a1 = keyPrefixOf a2 /\ b1 = b2 /\ e1 = e2.
Proof.
  intros a1 a2 b1 b2 e1 e2 Hlen H. unfold objectKeyOf in H.
  change ("/" +:+ (EncodeToString b1 +:+ e1))
    with (String "/" (EncodeToString b1 +:+ e1)) in H.
  change ("/" +:+ (EncodeToString b2 +:+ e2))
    with (String "/" (EncodeToString b2 +:+ e2)) in H.
  apply cut_at_first in H as [Hp Hrest]; try apply keyPrefixOf_no_slash.
  apply app_inj_same_length in Hrest as [Hn He].
  - apply (EncodeToString_inj_upto (length b1)) in Hn; auto.
  - rewrite (EncodeToString_length_upto (length b1) b1 (Nat.le_refl _)).
    rewrite (EncodeToString_length_upto (length b2) b2 (Nat.le_refl _)).
    now rewrite Hlen.
Qed.

Lemma object_key_injective_witness :
  keyPrefixOf "16:9" = keyPrefixOf "16:9" /\ [x01; x02] = [x01; x02] /\
  ".mp4" = ".mp4".
Proof.
  apply (object_key_injective "16:9" "16:9" [x01; x02] [x01; x02] ".mp4" ".mp4");
    reflexivity.
Defined.

End IdentifierFacts.

(** ** More about the locator codec *)

Module CodecFacts.
Import Store Strings Monad Codec Samples StringFacts.

(** X17. Decoding is undone by encoding: a Locator with exactly one
    delimiter splits into two parts, neither containing the delimiter, and
    encoding these two parts gives the Locator back. *)
Theorem encode_decode :
  forall s,
    Count s delimiter = 1%nat ->
    exists bucket key,
      Split s delimiter = [bucket; key] /\
      Contains bucket delimiter = false /\ Contains key delimiter = false /\
      encode bucket key = s.
Proof.
  intros s Hcount.
  pose proof (Split_length s delimiter) as Hlen. rewrite Hcount in Hlen.
  pose proof (Join_Split s delimiter) as Hjoin.
  pose proof (Split_parts_clean s delimiter) as Hclean.
  destruct (Split s delimiter) as [|bucket [|key [|]]]; try discriminate.
  exists bucket, key. inversion Hclean as [|? ? Hb Hrest]; subst.
  inversion Hrest; subst. auto.
Qed.

Lemma encode_decode_witness :
  exists bucket key,
    Split "tubely,portrait/x.mp4" delimiter = [bucket; key] /\
    Contains bucket delimiter = false /\ Contains key delimiter = false /\
    encode bucket key = "tubely,portrait/x.mp4".
Proof. apply (encode_decode "tubely,portrait/x.mp4"). reflexivity. Defined.

(** X18. Decode+sign touches nothing of a record but its reference, adds at
    most one signing request to the trace and writes to no store; it can
    fail only for a record that has a Locator, and a record without one
    comes back without one. *)
Theorem sign_frame :
  forall env video w,
    let out := dbVideoToSignedVideo env video w in
    files out.1 = files w /\ objects out.1 = objects w /\
    videos out.1 = videos w /\
    (trace out.1 = trace w \/
     exists bucket key, trace out.1 = trace w ++ [EvPresign bucket key (30 * Minute)]) /\
    match out.2 with
    | Ok v =>
        ID v = ID video /\ UserID v = UserID video /\
        ThumbnailURL v = ThumbnailURL video /\
        (VideoURL video = None <-> VideoURL v = None)
    | Err _ => VideoURL video <> None
    end.
Proof.
  intros env video w. cbn zeta. unfold dbVideoToSignedVideo, generatePresignedURL.
  destruct (VideoURL video) as [url|] eqn:Hurl; cbn [fst snd].
  - destruct (negb _); cbn [fst snd]; [repeat split; auto; discriminate|].
    destruct (PresignGetObject env _ _ _); cbn [fst snd files objects videos
      trace log ID UserID ThumbnailURL VideoURL set_VideoURL];
      repeat split; eauto; discriminate.
  - rewrite Hurl. repeat split; auto.
Qed.

End CodecFacts.


(** ** The thumbnail handler *)

Module ThumbnailFacts.
Import Store Strings Monad Codec Upload Outcome Thumbnail.
Import Samples MoreSamples ThumbSamples StringFacts UploadFacts UploadRuns.













End ThumbnailFacts.
